(* ===== verification/_CoqProject ===== *)
-Q . S2P
Prelude.v
JsString.v
JsNumber.v
JsCollections.v
Cards.v
Predicates.v
Suite.v
TallySpec.v
HandSpec.v
ValidHandMachine.v
