(* ===== verification/Prelude.v ===== *)
(** * A verification development of tdd-poker (src/index.ts)

    ** The program

    One TypeScript module, src/index.ts, with its Jest suite
    src/index.spec.ts.  Every exported function takes a hand as raw text
    ("2H 3H 4H 5H 6H"), splits it with [split(" ")] and reads [hand[0]]
    and [hand[1]] of each token as the card's value and suit symbol.
    Only [isValidHand] validates; the other helpers read whatever they
    are given.  [comparePokerHands] is an empty stub.  The engine is
    pure: there is no state beyond the local tallies and sets each call
    builds.

    ** Files, in dependency order

    - Prelude (this file): the [completion] type of a call that returns
      or throws ([Normal], [Throw]) with its bind notation in [js_scope],
      the hint databases [js] and [js_rw], string-append equations
      (stdpp makes [String.append] [simpl never]), the occurrence count
      [occ] and its lemmas (permutation invariance, the sum of counts over
      the distinct elements), and list lemmas shared by the components
      ([Permutation_fmap_inv], [Permutation_fmap_inj], [Forall2_Forall_iff],
      [Forall_uniform_fmap]).
    - JsString, JsNumber, JsCollections: the ECMAScript built-ins the
      module calls, modelled after ECMA-262 because the results depend on
      them: [split_space] (split on " ", pieces may be empty),
      [char_at] ([s[i]], undefined past the end), numbers with NaN and
      infinities ([number]), [parseInt], [num_sub], [===],
      [math_max]/[math_min], [js_sort] (a stable insertion sort reading a
      NaN comparator result as 0) with the class [ArraySort] of what any
      engine's sort promises, [includes], [set_size] (first-occurrence
      order), and plain objects as tallies ([jsobj], [tally_incr]) with
      the [for-in] order [for_in_keys]: array-index keys ("2".."9")
      ascending, then the other keys ("T".."A", "undefined") in creation
      order, with the class [ForInOrder] of what any engine's for-in
      promises.
    - Cards, Module [Cards]: [values], [suites], [isValidHand] (token loop
      [count_tokens], count check [check_counts]), [getHandValues],
      [getHandSuits], [getHandValuesNumericValue]; index.ts 20-60, 92-151.
    - Predicates, Module [Predicates]: [hasAPair], [getPairSize]
      ([count_values], [pair_size_loop]), [isAFlush], [isAStraight]
      ([straight_loop], [elem_at]), [getHighCard], [getLowCard],
      [comparePokerHands] (returns undefined, [None]) and the fixture
      [pokerHands]; index.ts 1-18, 62-90, 110-134, 153-169.
    - Suite, Module [Suite]: each Jest [test] of index.spec.ts as data
      (the value handed to [expect], its matcher, the skip flag), with
      [run_test], so a test runs on the model by evaluation.
    - TallySpec, Module [TallySpec]: the abstract specification of the
      tally objects both loops build, a [gmultiset string] of the keys,
      with the refinement relation [tally_rel] and the well-formedness
      invariant [tally_wf] (no key twice, positive integer counts).
    - ValidHandMachine, Module [ValidHandMachine]: [isValidHand] again,
      as a small-step machine: states [vstate] (start, token loop, key
      loop, return, throw), the step relation [vstep] with one rule per
      branch of index.ts 37-60, and the step function [vnext].
    - HandSpec, Module [HandSpec]: typed cards ([rank], [suit], [card]),
      the parser [hand_of] from a hand string to [list card] (a token
      denotes the card its first two characters name), and the textbook
      properties of a hand ([spec_valid], [spec_flush], [spec_has_pair],
      [spec_run], [ace_low], [spec_straight]) against which the string
      functions are refined; the pair categories ([Pairs.pair_category],
      [pair_category_of], from the multiplicities [rank_counts]) and, in
      Module [Classifier], the category cascade of spec 4.3
      ([spec_category]) next to the same cascade written with the
      helpers of index.ts ([helper_category]), the body a
      [comparePokerHands] would need.

    ** What is proved

    - Validation: [isValidHand] is [true] exactly on [hand_ok] strings
      (five tokens, each with a value and a suit symbol first, value
      symbols not all equal) and throws "Invalid hand!" otherwise; it
      reads only the first two characters of a token.
    - Round trip: values and suits written back and joined give the hand
      for two-character tokens; split/join round trips in JsString.
    - Helpers: [hasAPair] is duplicate detection, [isAFlush] "all suits
      equal", [getPairSize] a count of the cards whose value repeats with
      6 for four of a kind (up to five tokens, or any length without a
      four), and on any length 6 plus the repeated counts of the keys the
      for-in loop visits after the last four, hence order dependent
      beyond five tokens; [isAStraight] holds exactly when the numeric
      values are a permutation of a run of consecutive integers, so a
      hand with an ace and a two (the wheel A-2-3-4-5 of spec 4.3 and of
      the test at index.spec.ts:190) is never a straight, and it accepts
      any single token; [getHighCard]/[getLowCard] are the extremes, in
      [2, 14], on valid hands, NaN or an integer in [0, 14] on every
      input, and differ by [n - 1] on a straight of [n] cards.
    - Runtime: the sort is a permutation for any comparator and the
      unique sorted permutation for [(a, b) => a - b] on integers, so the
      choice of sorting algorithm does not matter; a tally holds each
      key's count and its keys are the set of tallied keys.
    - Tallies (TallySpec): the token loop of [isValidHand] and the object
      of [getPairSize] refine the multiset of the keys read, and the
      token loop preserves [tally_wf].
    - Types (Cards): [getHandValues] and [getHandSuits], declared
      [string[]], contain [undefined] exactly for too-short tokens.
    - Refinement (HandSpec): [isValidHand] is [spec_valid] of the parsed
      hand; on parsed hands [isAFlush], [hasAPair] and [isAStraight] are
      [spec_flush], [spec_has_pair] and [spec_straight] without the wheel;
      the predicates and [getHighCard]/[getLowCard] are invariant under
      reordering the cards, [getPairSize] too up to five cards;
      [getPairSize] is an injective code of the pair category of a valid
      hand; the helper cascade classifies every valid hand as spec 4.3
      does, except the wheel, which it calls a high card (or a flush).
    - Engines (JsNumber, Predicates): [isAStraight_with sort] gives the
      same result for every [sort] that is an instance of the class
      [ArraySort] (permutation; sorted for [(a, b) => a - b] on
      integers), the promises of ECMA-262, which leaves the algorithm
      implementation-defined; [js_sort] and [merge_engine] are instances.
      In the same way [isValidHand_with enum] equals [isValidHand] for
      every for-in key order [enum] ([ForInOrder]), and
      [getPairSize_with enum] equals [getPairSize] on hands of at most
      five tokens; beyond, the order of the keys changes the result
      (6 with the ES2020 order, 8 with creation order on
      "4H 4D 4S 4C 2H 2D").
    - Runs (ValidHandMachine): every run of [vstep] stops, within 13
      steps (liveness, stdpp's [sn] and [nsteps]); all runs from a hand
      stop in one and the same state (the step is deterministic); the
      machine reaches [true] exactly on [hand_ok] hands and the
      exception exactly on the others; it throws at the first rejected
      token, after [length pre + 2] steps, without reading further or
      entering the key loop; every reachable state satisfies the
      invariant [vinv], proved by rule induction ([rtc_ind_r]).
    - Errors and consistency (Predicates): [getHighCard]/[getLowCard] are
      NaN exactly when a token's first character is missing or is not a
      digit or T, J, Q, K, A; [hasAPair] holds exactly when [getPairSize]
      is not 0, on hands of any length; a hand with a pair is never a
      straight; on hands of at most five tokens [getPairSize] is one of
      0, 2, 3, 4, 5, 6.

    ** Bounds and fuel

    [straight_loop] is the [for] loop of [isAStraight] with fuel; the
    model runs it with fuel [length sortedNumValues], and lemma
    [straight_loop_fuel] shows that any fuel at least the length gives the
    same result, the adjacent-pair check: the loop runs at most
    [length - 1] iterations.  The machine of ValidHandMachine needs no
    fuel: [vmeasure] (3 + 2 per token at the start) decreases at every
    step, so runs are finite, and [vrun] executes it with fuel 13, enough
    for a five-token hand (one size check, five tokens, at most five
    keys, the return).  Integers are unbounded [Z]: the values are at
    most 14 and counts at most the number of tokens, far below 2^53;
    -0 is not distinguished.  Characters are 8-bit [ascii], so hands with
    code units above 255 are not modelled.

    ** Not modelled

    The tie-break keys of spec 4.3 and the comparison contract of 4.4:
    the source has no code for them ([comparePokerHands] is empty); the
    category cascade is stated as a specification in HandSpec, not as a
    model of code.  The CLI and I/O plumbing the spec
    mentions do not exist in the repository.  The first line of
    index.spec.ts (babel configuration) is not modelled.

    Every function, constant and loop of src/index.ts is a definition
    of the development; what is left of the spec (tie-break keys,
    comparison, distinct error kinds) has no code to model, so the
    Category Classifier and Hand Comparator components are as complete
    as the source allows.
    *)

From Stdlib Require Export ZArith Ascii String.
From stdpp Require Export base list strings sorting sets.

Declare Scope js_scope.
Delimit Scope js_scope with js.

(** ** Completions: a call returns normally or throws an [Error]. *)

Inductive completion (A : Type) : Type :=
| Normal (v : A)
| Throw (msg : string).
Arguments Normal {A} v.
Arguments Throw {A} msg.

#[export] Instance completion_eq_dec {A} `{EqDecision A} : EqDecision (completion A).
Proof. solve_decision. Defined.

Definition completion_map {A B} (f : A -> B) (c : completion A) : completion B :=
  match c with
  | Normal v => Normal (f v)
  | Throw m => Throw m
  end.

Definition bind {A B} (c : completion A) (k : A -> completion B) : completion B :=
  match c with
  | Normal v => k v
  | Throw m => Throw m
  end.

Notation "x <- c ;; k" := (bind c (fun x => k))
  (at level 60, c at next level, right associativity) : js_scope.

Create HintDb js discriminated.
Create Rewrite HintDb js_rw.

Lemma bind_normal {A B} (v : A) (k : A -> completion B) : bind (Normal v) k = k v.
Proof. reflexivity. Qed.

Lemma bind_throw {A B} m (k : A -> completion B) : bind (Throw m) k = Throw m.
Proof. reflexivity. Qed.

#[export] Hint Rewrite @bind_normal @bind_throw : js_rw.

(** ** Strings

    stdpp declares [String.append] [simpl never]; its two equations are
    stated here and used by rewriting. *)

Lemma string_app_nil_l (a : string) : EmptyString +:+ a = a.
Proof. reflexivity. Qed.

Lemma string_app_cons (x : ascii) (a b : string) : String x a +:+ b = String x (a +:+ b).
Proof. reflexivity. Qed.

Lemma string_app_assoc (a b c : string) : (a +:+ b) +:+ c = a +:+ (b +:+ c).
Proof.
  induction a as [|x a IH]; [done|]. by rewrite !string_app_cons, IH.
Qed.

Lemma string_app_nil_r (a : string) : a +:+ EmptyString = a.
Proof. induction a as [|x a IH]; [done|]. by rewrite string_app_cons, IH. Qed.

#[export] Hint Rewrite string_app_nil_l string_app_cons string_app_assoc
  string_app_nil_r : js_rw.

(** ** Counting occurrences in a list *)

Section Occurrences.
Context {A : Type} `{EqDecision A}.
Implicit Types (x y : A) (l : list A).

Fixpoint occ x l : nat :=
  match l with
  | [] => 0
  | y :: l' => (if decide (x = y) then 1 else 0) + occ x l'
  end.

Lemma occ_app x l1 l2 : occ x (l1 ++ l2) = occ x l1 + occ x l2.
Proof. induction l1 as [|y l1 IH]; simpl; [done | rewrite IH; lia]. Qed.

Lemma occ_Permutation x l1 l2 : l1 ≡ₚ l2 -> occ x l1 = occ x l2.
Proof. induction 1; simpl; repeat case_decide; lia. Qed.

Lemma occ_pos x l : x ∈ l <-> 0 < occ x l.
Proof.
  induction l as [|y l IH]; simpl.
  - rewrite elem_of_nil. lia.
  - rewrite elem_of_cons, IH. case_decide; naive_solver lia.
Qed.

Lemma occ_NoDup l : NoDup l <-> forall x, occ x l <= 1.
Proof.
  induction l as [|y l IH]; [split; [simpl; lia | constructor]|].
  rewrite NoDup_cons, IH. split.
  - intros [Hy Hl] x. simpl. case_decide as E; [subst|]; [|by apply Hl].
    enough (occ y l = 0) by lia. destruct (occ y l) eqn:E0; [done|].
    exfalso. apply Hy, occ_pos. lia.
  - intros H. split.
    + intros Hy%occ_pos. specialize (H y). simpl in H. rewrite decide_True in H by done. lia.
    + intros x. specialize (H x). simpl in H. lia.
Qed.

Lemma occ_le_length x l : occ x l <= length l.
Proof. induction l as [|y l IH]; simpl; [lia | case_decide; lia]. Qed.

(** Filtering on a property of the value keeps every copy of a kept value. *)
Lemma occ_filter (P : A -> Prop) `{!forall k, Decision (P k)} x l :
  P x -> occ x (filter P l) = occ x l.
Proof.
  intros Hx. induction l as [|y l IH]; [done|]. rewrite filter_cons.
  case_decide as Hy; simpl; rewrite IH; [done|]. case_decide; [subst; contradiction | done].
Qed.

(** The elements that occur more than once are never exactly one. *)
Lemma length_filter_repeated l : length (filter (fun x => 1 < occ x l) l) <> 1.
Proof.
  destruct (filter (fun x => 1 < occ x l) l) as [|k [|k' r]] eqn:E; simpl; [lia | | lia].
  assert (Hk : k ∈ filter (fun x => 1 < occ x l) l) by (rewrite E; left).
  apply list_elem_of_filter in Hk as [Hk _].
  pose proof (occ_filter (fun x => 1 < occ x l) k l Hk) as Ho. rewrite E in Ho. simpl in Ho.
  rewrite decide_True in Ho by done. lia.
Qed.

(** [x] fills the whole list exactly when it occurs [length l] times. *)
Lemma occ_eq_length x l : occ x l = length l <-> Forall (fun y => y = x) l.
Proof.
  induction l as [|y l IH]; simpl; [split; [constructor | done]|].
  rewrite Forall_cons, <- IH. pose proof (occ_le_length x l).
  case_decide; naive_solver lia.
Qed.
(** Two distinct elements together occur at most [length l] times. *)
Lemma occ_two x y l : x <> y -> occ x l + occ y l <= length l.
Proof. intros Hxy. induction l as [|z l IH]; simpl; [lia|]. repeat case_decide; subst; try congruence; lia. Qed.

Lemma sum_occ_absent (P : A -> Prop) `{!forall k, Decision (P k)} x ds :
  x ∉ ds ->
  sum_list_with (fun k => if decide (P k) then (if decide (k = x) then 1 else 0) else 0) ds = 0.
Proof.
  induction ds as [|d ds IH]; simpl; [done|]. rewrite elem_of_cons. intros Hx.
  rewrite IH by naive_solver. repeat case_decide; naive_solver.
Qed.

Lemma sum_occ_single (P : A -> Prop) `{!forall k, Decision (P k)} x ds :
  NoDup ds -> x ∈ ds ->
  sum_list_with (fun k => if decide (P k) then (if decide (k = x) then 1 else 0) else 0) ds =
  if decide (P x) then 1 else 0.
Proof.
  induction 1 as [|d ds Hd Hnd IH]; [by rewrite elem_of_nil|]. rewrite elem_of_cons. simpl.
  intros [->|Hx].
  - rewrite sum_occ_absent by done. repeat case_decide; naive_solver.
  - rewrite IH by done. repeat case_decide; subst; naive_solver.
Qed.

(** Summing the occurrence counts of the distinct elements that satisfy
    [P] counts the elements of [ks] that satisfy [P]. *)
Lemma sum_occ_filter (P : A -> Prop) `{!forall k, Decision (P k)} ks ds :
  NoDup ds -> (forall x, x ∈ ks -> x ∈ ds) ->
  sum_list_with (fun k => if decide (P k) then occ k ks else 0) ds = length (filter P ks).
Proof.
  intros Hnd. induction ks as [|x ks IH]; intros Hsub; simpl.
  - clear. induction ds as [|d ds IH]; simpl; [done|]. case_decide; lia.
  - assert (Hsplit : forall ks',
      sum_list_with (fun k => if decide (P k) then (if decide (k = x) then 1 else 0) + occ k ks' else 0) ds =
      sum_list_with (fun k => if decide (P k) then (if decide (k = x) then 1 else 0) else 0) ds +
      sum_list_with (fun k => if decide (P k) then occ k ks' else 0) ds).
    { intros ks'. clear. induction ds as [|d ds IH]; simpl; [done|]. repeat case_decide; lia. }
    rewrite Hsplit, sum_occ_single, IH, filter_cons by set_solver.
    case_decide; simpl; lia.
Qed.
End Occurrences.

(** ** Lists and maps *)

Lemma Permutation_fmap_inv {A B} (f : A -> B) (l : list B) (ys : list A) :
  l ≡ₚ f <$> ys -> exists zs, l = f <$> zs /\ zs ≡ₚ ys.
Proof.
  intros H. remember (f <$> ys) as m eqn:Hm. revert ys Hm.
  induction H as [|x l l' H IH|x y l|l l' l'' H1 IH1 H2 IH2]; intros ys Hm.
  - exists []. symmetry in Hm. apply fmap_nil_inv in Hm. by subst.
  - destruct ys as [|y ys]; simplify_eq/=.
    destruct (IH ys eq_refl) as (zs & -> & Hzs). exists (y :: zs). split; [done|]. by apply perm_skip.
  - destruct ys as [|a [|b ys]]; simplify_eq/=. exists (b :: a :: ys). split; [done|]. apply Permutation_swap.
  - destruct (IH2 ys Hm) as (zs' & -> & Hzs'). destruct (IH1 zs' eq_refl) as (zs & -> & Hzs).
    exists zs. split; [done|]. by rewrite Hzs.
Qed.

(** A pointwise equivalence of two predicates along a [Forall2] relation
    transfers [Forall] from one list to the other. *)
Lemma Forall2_Forall_iff {A B} (R : A -> B -> Prop) (P : A -> Prop) (Q : B -> Prop) l k :
  Forall2 R l k -> (forall a b, R a b -> P a <-> Q b) -> Forall P l <-> Forall Q k.
Proof. intros HR HPQ. induction HR; rewrite ?Forall_cons; naive_solver. Qed.

(** An injective map reflects permutations. *)
Lemma Permutation_fmap_inj {A B} (f : A -> B) `{!Inj eq eq f} (l1 l2 : list A) :
  f <$> l1 ≡ₚ f <$> l2 <-> l1 ≡ₚ l2.
Proof.
  split; [|by intros ->].
  intros (zs & Hzs & Hp)%Permutation_fmap_inv. apply (inj (fmap f)) in Hzs. by subst.
Qed.

(** An injective map keeps the occurrence counts. *)
Lemma occ_fmap_inj {A B} `{EqDecision A, EqDecision B} (f : A -> B) `{!Inj eq eq f} x l :
  occ (f x) (f <$> l) = occ x l.
Proof.
  induction l as [|y l IH]; [done|]. rewrite fmap_cons. cbn [occ]. rewrite IH.
  repeat case_decide; [done | by destruct H0; apply (inj f) | by subst | done].
Qed.

Lemma length_filter_fmap {A B} (f : A -> B) (P : B -> Prop) `{!forall b, Decision (P b)} l :
  length (filter P (f <$> l)) = length (filter (fun a => P (f a)) l).
Proof. induction l as [|a l IH]; [done|]. rewrite fmap_cons, !filter_cons. case_decide; simpl; lia. Qed.

Lemma sum_list_fmap {A} (f : A -> nat) l : sum_list (f <$> l) = sum_list_with f l.
Proof. induction l as [|a l IH]; [done|]. rewrite fmap_cons. cbn [sum_list_with]. by rewrite IH. Qed.

Lemma sum_list_filter_fmap {A} (f : A -> nat) (P : nat -> Prop) `{!forall n, Decision (P n)} l :
  sum_list (filter P (f <$> l)) = sum_list_with (fun a => if decide (P (f a)) then f a else 0) l.
Proof.
  induction l as [|a l IH]; [done|]. rewrite fmap_cons, filter_cons. cbn [sum_list_with].
  case_decide; cbn [sum_list_with]; rewrite IH; unfold id; lia.
Qed.

(** A list of numbers between 1 and 5 is determined, for its sum and the
    sum of its elements above 1, by how often each number occurs. *)
Lemma sum_small_nat (cs : list nat) :
  Forall (fun n => 1 <= n <= 5) cs ->
  sum_list cs = occ 1 cs + 2 * occ 2 cs + 3 * occ 3 cs + 4 * occ 4 cs + 5 * occ 5 cs /\
  sum_list (filter (fun n => 1 < n) cs) = 2 * occ 2 cs + 3 * occ 3 cs + 4 * occ 4 cs + 5 * occ 5 cs.
Proof.
  induction 1 as [|x cs Hx _ [IH1 IH2]]; [done|]. rewrite filter_cons. simpl.
  assert (x = 1 \/ x = 2 \/ x = 3 \/ x = 4 \/ x = 5) as Hc by lia.
  repeat case_decide; simpl; lia.
Qed.

(** Whether all elements of a list agree on [f] is decidable. *)
#[export] Instance exists_uniform_dec {A B} `{EqDecision B, Inhabited B} (f : A -> B) (l : list A) :
  Decision (exists b, Forall (fun x => f x = b) l).
Proof.
  destruct l as [|x l]; [left; exists inhabitant; constructor|].
  destruct (decide (Forall (fun y => f y = f x) (x :: l))) as [Hf|Hf]; [left; eauto|].
  right. intros [b Hb]. apply Hf. apply Forall_cons in Hb as Hb'. destruct Hb' as [-> _]. exact Hb.
Defined.

(** Sortedness of an image reflects back through a map. *)
Lemma Sorted_fmap_inv {A B} (f : A -> B) (R1 : relation A) (R2 : relation B) (l : list A) :
  (forall x y, R2 (f x) (f y) -> R1 x y) -> Sorted R2 (f <$> l) -> Sorted R1 l.
Proof.
  intros HR. induction l as [|x l IH]; intros Hs; [constructor|].
  rewrite fmap_cons in Hs. apply Sorted_inv in Hs as [Hs Hd]. constructor; [by apply IH|].
  destruct l as [|y l]; constructor. rewrite fmap_cons in Hd. apply HdRel_inv in Hd. by apply HR.
Qed.

(** Through an injective map, a non-empty list is constant exactly when
    its image is. *)
Lemma Forall_uniform_fmap {A B} (f : A -> B) `{!Inj eq eq f} (l : list A) :
  l <> [] ->
  (exists b, f <$> l <> [] /\ Forall (eq b) (f <$> l)) <-> exists a, Forall (fun x => x = a) l.
Proof.
  intros Hne. setoid_rewrite Forall_fmap. split.
  - destruct l as [|x l]; [done|]. intros (b & _ & Hb%Forall_cons). destruct Hb as [-> Hb].
    exists x. constructor; [done|]. eapply Forall_impl; [exact Hb|]. by intros y ?%(inj f).
  - intros [a Ha]. exists (f a). split; [by destruct l|].
    eapply Forall_impl; [exact Ha|]. by intros y ->.
Qed.

#[export] Hint Resolve occ_Permutation occ_le_length : js.
