(* ===== verification/JsString.v ===== *)
(** ECMAScript strings as src/index.ts uses them: [s.split(" ")], the
    inverse [xs.join(" ")] (used to state round trips), and indexing
    [s[i]], which yields one character or [undefined] past the end.
    Strings are Stdlib [string]s of [ascii] characters. *)

From S2P Require Import Prelude.

Module JsString.

Definition space : ascii := " "%char.

(** [String.prototype.split] with the one-character separator " ": every
    occurrence of the separator ends a piece, pieces may be empty, and
    the result is never empty (the empty string splits into one empty piece).  [cur] is the
    piece read so far. *)
Fixpoint split_go (s cur : string) : list string :=
  match s with
  | EmptyString => [cur]
  | String c s' =>
      if Ascii.eqb c space then cur :: split_go s' EmptyString
      else split_go s' (cur +:+ String c EmptyString)
  end.

Definition split_space (s : string) : list string := split_go s EmptyString.

(** [Array.prototype.join(" ")] on a list of strings. *)
Fixpoint join_space (l : list string) : string :=
  match l with
  | [] => EmptyString
  | [x] => x
  | x :: l' => x +:+ String space (join_space l')
  end.

(** [s[i]]: the one-character string at position [i], or [undefined]
    ([None]) past the end. *)
Definition char_at (s : string) (i : nat) : option string :=
  (fun c => String c EmptyString) <$> String.get i s.

Fixpoint has_space (s : string) : bool :=
  match s with
  | EmptyString => false
  | String c s' => Ascii.eqb c space || has_space s'
  end.

(** ** Lemmas *)

Lemma split_go_cons s cur : exists x l, split_go s cur = x :: l.
Proof.
  revert cur; induction s as [|c s IH]; intros cur; simpl; [by eauto|].
  destruct (Ascii.eqb c space); eauto.
Qed.

Lemma split_go_space r cur : split_go (String space r) cur = cur :: split_go r EmptyString.
Proof. reflexivity. Qed.

Lemma join_cons_cons x y l : join_space (x :: y :: l) = x +:+ String space (join_space (y :: l)).
Proof. reflexivity. Qed.

Lemma join_split_go s cur : join_space (split_go s cur) = cur +:+ s.
Proof.
  revert cur; induction s as [|c s IH]; intros cur; simpl.
  - by rewrite string_app_nil_r.
  - destruct (Ascii.eqb_spec c space) as [->|Hc].
    + destruct (split_go_cons s EmptyString) as (x & l & Hxl).
      by rewrite Hxl, join_cons_cons, <- Hxl, IH.
    + by rewrite IH, string_app_assoc.
Qed.

(** Joining the pieces with " " gives the string back. *)
Lemma join_split_space s : join_space (split_space s) = s.
Proof. apply join_split_go. Qed.

Lemma has_space_app a b : has_space (a +:+ b) = has_space a || has_space b.
Proof.
  induction a as [|c a IH]; [done|].
  rewrite string_app_cons. simpl. by rewrite IH, orb_assoc.
Qed.

Lemma split_go_app t r cur :
  has_space t = false -> split_go (t +:+ r) cur = split_go r (cur +:+ t).
Proof.
  revert cur; induction t as [|c t IH]; intros cur Ht.
  - by rewrite string_app_nil_l, string_app_nil_r.
  - simpl in Ht. apply orb_false_elim in Ht as [Hc Ht].
    rewrite string_app_cons. simpl. rewrite Hc, IH by done.
    by rewrite string_app_assoc.
Qed.

(** Splitting a join of space-free pieces gives the pieces back. *)
Lemma split_join_space l :
  l <> [] -> Forall (fun t => has_space t = false) l -> split_space (join_space l) = l.
Proof.
  intros Hne Hl. unfold split_space.
  induction Hl as [|x l Hx Hl IH]; [done|].
  destruct l as [|y l].
  - by rewrite <- (string_app_nil_r (join_space [x])), split_go_app.
  - rewrite join_cons_cons, split_go_app, split_go_space by done.
    by rewrite IH, string_app_nil_l.
Qed.

Lemma split_go_no_space s cur :
  has_space cur = false -> Forall (fun t => has_space t = false) (split_go s cur).
Proof.
  revert cur; induction s as [|c s IH]; intros cur Hcur; simpl; [by constructor|].
  destruct (Ascii.eqb c space) eqn:Hc.
  - constructor; [done | by apply IH].
  - apply IH. rewrite has_space_app. simpl. by rewrite Hcur, Hc.
Qed.

(** No piece of a split contains the separator. *)
Lemma split_space_no_space s : Forall (fun t => has_space t = false) (split_space s).
Proof. by apply split_go_no_space. Qed.

(** A string with [k] spaces splits into [k + 1] pieces. *)
Lemma length_split_go s cur :
  length (split_go s cur) = S (occ space (list_ascii_of_string s)).
Proof.
  revert cur; induction s as [|c s IH]; intros cur; simpl; [done|].
  destruct (Ascii.eqb_spec c space) as [->|Hc]; simpl; rewrite IH;
    repeat case_decide; congruence || lia.
Qed.

Lemma length_split_space s :
  length (split_space s) = S (occ space (list_ascii_of_string s)).
Proof. apply length_split_go. Qed.

Lemma split_space_nonempty s : split_space s <> [].
Proof. destruct (split_go_cons s EmptyString) as (x & l & H). unfold split_space. by rewrite H. Qed.

End JsString.
