(* ===== verification/JsNumber.v ===== *)
(** ECMAScript numbers as src/index.ts uses them.  Every number the
    module computes is an integer, NaN, or (for [Math.max()] and
    [Math.min()] of nothing) an infinity, so a number is an integer [Z]
    or one of the three special values; -0 is not distinguished from +0.
    This file models [parseInt] (no radix), subtraction, [===],
    [Math.max]/[Math.min] and [Array.prototype.sort] with a comparator,
    each after its ECMAScript algorithm.  Because the sorting algorithm
    is left to the engine, the class [ArraySort] states what every
    engine promises of [sort]; [js_sort] (insertion sort) and
    [merge_engine] (merge sort) are instances. *)

From S2P Require Import Prelude.

Module JsNumber.

Inductive number : Type :=
| Num (z : Z)
| NaN
| PosInf
| NegInf.

#[export] Instance number_eq_dec : EqDecision number.
Proof. solve_decision. Defined.

(** ** Arithmetic and comparison *)

Definition num_sub (a b : number) : number :=
  match a, b with
  | Num x, Num y => Num (x - y)
  | NaN, _ | _, NaN => NaN
  | PosInf, PosInf | NegInf, NegInf => NaN
  | PosInf, _ | Num _, NegInf => PosInf
  | NegInf, _ | Num _, PosInf => NegInf
  end.

Definition num_add (a b : number) : number :=
  match a, b with
  | Num x, Num y => Num (x + y)
  | NaN, _ | _, NaN => NaN
  | PosInf, NegInf | NegInf, PosInf => NaN
  | PosInf, _ | _, PosInf => PosInf
  | NegInf, _ | _, NegInf => NegInf
  end.

(** [x || 0] for [x] an optional number ([None] is [undefined]): the
    falsy values undefined, 0 and NaN give 0. *)
Definition or_zero (x : option number) : number :=
  match x with
  | Some (Num z) => Num z
  | Some PosInf => PosInf
  | Some NegInf => NegInf
  | Some NaN | None => Num 0
  end.

(** [a === b] on numbers: NaN equals nothing, itself included. *)
Definition num_strict_eqb (a b : number) : bool :=
  match a, b with
  | Num x, Num y => (x =? y)%Z
  | PosInf, PosInf | NegInf, NegInf => true
  | _, _ => false
  end.

(** [a < b]; false whenever NaN is involved. *)
Definition num_ltb (a b : number) : bool :=
  match a, b with
  | Num x, Num y => (x <? y)%Z
  | NegInf, (Num _ | PosInf) | Num _, PosInf => true
  | _, _ => false
  end.

(** ** parseInt(string), radix undefined (ECMA-262 19.2.5) *)

(** StrWhiteSpaceChar among the 8-bit code units: TAB, LF, VT, FF, CR,
    SPACE and NO-BREAK SPACE. *)
Definition is_js_space (c : ascii) : bool :=
  match nat_of_ascii c with
  | 9 | 10 | 11 | 12 | 13 | 32 | 160 => true
  | _ => false
  end.

Fixpoint trim_start (s : string) : string :=
  match s with
  | String c s' => if is_js_space c then trim_start s' else s
  | EmptyString => EmptyString
  end.

(** The value of a digit in radix 36 ('0'-'9', 'a'-'z', 'A'-'Z'). *)
Definition digit_value (c : ascii) : option Z :=
  let n := Z.of_nat (nat_of_ascii c) in
  (if (48 <=? n) && (n <=? 57) then Some (n - 48)
   else if (97 <=? n) && (n <=? 122) then Some (n - 87)
   else if (65 <=? n) && (n <=? 90) then Some (n - 55)
   else None)%Z.

(** Read the longest prefix of radix-[r] digits; [None] if it is empty. *)
Fixpoint parse_digits (r : Z) (s : string) (acc : option Z) : option Z :=
  match s with
  | String c s' =>
      match digit_value c with
      | Some d => if (d <? r)%Z then parse_digits r s' (Some (default 0 acc * r + d)%Z) else acc
      | None => acc
      end
  | EmptyString => acc
  end.

Definition parseInt (str : string) : number :=
  let s := trim_start str in
  let '(sign, s) :=
    match s with
    | String "-" s' => ((-1)%Z, s')
    | String "+" s' => (1%Z, s')
    | _ => (1%Z, s)
    end in
  let '(r, s) :=
    match s with
    | String "0" (String ("x" | "X") s') => (16%Z, s')
    | _ => (10%Z, s)
    end in
  match parse_digits r s None with
  | Some z => Num (sign * z)
  | None => NaN
  end.

(** ToString(undefined), the argument [parseInt] sees for a missing
    character. *)
Definition undefined_string : string := "undefined".

(** ** Math.max / Math.min (ECMA-262 21.3.2.24-25) *)

(** The loop returns NaN at the first NaN and otherwise keeps the
    largest (smallest) value, starting from -Infinity (+Infinity). *)
Fixpoint max_loop (l : list number) (hi : number) : number :=
  match l with
  | [] => hi
  | NaN :: _ => NaN
  | x :: l' => max_loop l' (if num_ltb hi x then x else hi)
  end.

Fixpoint min_loop (l : list number) (lo : number) : number :=
  match l with
  | [] => lo
  | NaN :: _ => NaN
  | x :: l' => min_loop l' (if num_ltb x lo then x else lo)
  end.

Definition math_max (l : list number) : number := max_loop l NegInf.
Definition math_min (l : list number) : number := min_loop l PosInf.

(** ** Array.prototype.sort(comparefn) (ECMA-262 23.1.3.30)

    SortCompare(x, y) calls the comparator and reads a NaN result as
    +0.  The sort is a stable insertion sort: a later element goes
    before an earlier one only when the comparator says it is strictly
    smaller.  With a consistent comparator every sorting algorithm gives
    this result (lemma [js_sort_sub_unique]); with NaN in the array the
    comparator is inconsistent and the order is implementation-defined,
    a case the module's results do not depend on (see Predicates). *)
Definition sort_compare (cmp : number -> number -> number) (x y : number) : number :=
  match cmp x y with
  | NaN => Num 0
  | v => v
  end.

Fixpoint sort_insert (cmp : number -> number -> number) (x : number) (l : list number) :=
  match l with
  | [] => [x]
  | y :: l' => if num_ltb (sort_compare cmp x y) (Num 0) then x :: y :: l' else y :: sort_insert cmp x l'
  end.

Definition js_sort (cmp : number -> number -> number) (l : list number) : list number :=
  fold_left (fun acc x => sort_insert cmp x acc) l [].

(** ** Lemmas on equality *)

Lemma num_strict_eqb_num n z : num_strict_eqb n (Num z) = bool_decide (n = Num z).
Proof. destruct n; simpl; try done. case_bool_decide as H; [inversion H; apply Z.eqb_refl|]. apply Z.eqb_neq. congruence. Qed.

(** ** Lemmas on sort *)

Lemma sort_insert_perm cmp x l : sort_insert cmp x l ≡ₚ x :: l.
Proof.
  induction l as [|y l IH]; simpl; [done|].
  destruct (num_ltb _ _); [done|]. rewrite IH. apply Permutation_swap.
Qed.

Lemma js_sort_go_perm cmp l acc :
  fold_left (fun acc x => sort_insert cmp x acc) l acc ≡ₚ l ++ acc.
Proof.
  revert acc; induction l as [|x l IH]; intros acc; simpl; [done|].
  rewrite IH, sort_insert_perm. by rewrite Permutation_middle.
Qed.

(** Whatever the comparator, the sort only reorders. *)
Lemma js_sort_perm cmp l : js_sort cmp l ≡ₚ l.
Proof. unfold js_sort. by rewrite js_sort_go_perm, app_nil_r. Qed.

Section IntegerSort.
(** On integers the comparator [(a, b) => a - b] is consistent and the
    sort is the insertion sort of [Z]. *)
Fixpoint zinsert (x : Z) (l : list Z) : list Z :=
  match l with
  | [] => [x]
  | y :: l' => if (x <? y)%Z then x :: y :: l' else y :: zinsert x l'
  end.

Lemma sort_insert_num x zs :
  sort_insert num_sub (Num x) (Num <$> zs) = Num <$> zinsert x zs.
Proof.
  induction zs as [|y zs IH]; [done|].
  rewrite fmap_cons. cbn [sort_insert sort_compare num_sub num_ltb zinsert].
  replace ((x - y <? 0)%Z) with ((x <? y)%Z)
    by (destruct (Z.ltb_spec x y), (Z.ltb_spec (x - y) 0); lia).
  destruct (x <? y)%Z; [done|]. by rewrite IH, fmap_cons.
Qed.

Lemma js_sort_num_go zs acc :
  fold_left (fun acc x => sort_insert num_sub x acc) (Num <$> zs) (Num <$> acc)
  = Num <$> fold_left (fun acc x => zinsert x acc) zs acc.
Proof.
  revert acc; induction zs as [|z zs IH]; intros acc; [done|].
  rewrite !fmap_cons. cbn [fold_left]. by rewrite sort_insert_num, IH.
Qed.

Lemma zinsert_sorted x l : Sorted Z.le l -> Sorted Z.le (zinsert x l).
Proof.
  induction 1 as [|y l Hl IH Hhd]; simpl; [by repeat constructor|].
  destruct (Z.ltb_spec x y).
  - constructor; [by constructor | constructor; lia].
  - constructor; [done|]. destruct l as [|y' l]; simpl.
    + constructor. lia.
    + inversion Hhd; subst. destruct (x <? y')%Z; constructor; lia.
Qed.

Lemma zinsert_perm x l : zinsert x l ≡ₚ x :: l.
Proof.
  induction l as [|y l IH]; simpl; [done|].
  destruct (x <? y)%Z; [done|]. rewrite IH. apply Permutation_swap.
Qed.

Lemma zsort_go_spec zs acc :
  Sorted Z.le acc ->
  Sorted Z.le (fold_left (fun acc x => zinsert x acc) zs acc) /\
  fold_left (fun acc x => zinsert x acc) zs acc ≡ₚ zs ++ acc.
Proof.
  revert acc; induction zs as [|z zs IH]; intros acc Hacc; simpl; [done|].
  destruct (IH (zinsert z acc)) as [H1 H2]; [by apply zinsert_sorted|].
  split; [done|]. by rewrite H2, zinsert_perm, Permutation_middle.
Qed.
End IntegerSort.

(** On integers the sort returns a sorted permutation ... *)
Lemma js_sort_sub_sorted zs :
  exists ys, js_sort num_sub (Num <$> zs) = Num <$> ys /\ Sorted Z.le ys /\ ys ≡ₚ zs.
Proof.
  exists (fold_left (fun acc x => zinsert x acc) zs []).
  destruct (zsort_go_spec zs []) as [H1 H2]; [constructor|].
  split; [apply (js_sort_num_go zs [])|]. split; [done|]. by rewrite H2, app_nil_r.
Qed.

(** ... and it is the only one: any algorithm that sorts integers with
    this comparator gives the same array. *)
Lemma js_sort_sub_unique zs ys :
  Sorted Z.le ys -> ys ≡ₚ zs -> js_sort num_sub (Num <$> zs) = Num <$> ys.
Proof.
  intros Hs Hp. destruct (js_sort_sub_sorted zs) as (ys' & -> & Hs' & Hp').
  f_equal. apply (Sorted_unique Z.le); [done..|]. by rewrite Hp, Hp'.
Qed.

(** ** Lemmas on Math.max / Math.min *)

Lemma max_loop_nan l hi : NaN ∈ l -> max_loop l hi = NaN.
Proof.
  revert hi; induction l as [|x l IH]; intros hi Hin; [by apply elem_of_nil in Hin|].
  apply elem_of_cons in Hin as [<-|Hin]; [done|].
  destruct x; simpl; auto.
Qed.

Lemma min_loop_nan l lo : NaN ∈ l -> min_loop l lo = NaN.
Proof.
  revert lo; induction l as [|x l IH]; intros lo Hin; [by apply elem_of_nil in Hin|].
  apply elem_of_cons in Hin as [<-|Hin]; [done|].
  destruct x; simpl; auto.
Qed.

Lemma max_loop_num zs h : max_loop (Num <$> zs) (Num h) = Num (foldl Z.max h zs).
Proof.
  revert h; induction zs as [|z zs IH]; intros h; [done|]. simpl. rewrite <- IH.
  f_equal. destruct (Z.ltb_spec h z); f_equal; lia.
Qed.

Lemma min_loop_num zs h : min_loop (Num <$> zs) (Num h) = Num (foldl Z.min h zs).
Proof.
  revert h; induction zs as [|z zs IH]; intros h; [done|]. simpl. rewrite <- IH.
  f_equal. destruct (Z.ltb_spec z h); f_equal; lia.
Qed.

Lemma math_max_num z zs : math_max (Num <$> z :: zs) = Num (foldl Z.max z zs).
Proof. apply max_loop_num. Qed.

Lemma math_min_num z zs : math_min (Num <$> z :: zs) = Num (foldl Z.min z zs).
Proof. apply min_loop_num. Qed.

Lemma math_max_nan l : NaN ∈ l -> math_max l = NaN.
Proof. apply max_loop_nan. Qed.

Lemma math_min_nan l : NaN ∈ l -> math_min l = NaN.
Proof. apply min_loop_nan. Qed.

(** The fold of [Z.max] is the largest element. *)
Lemma foldl_max_spec z zs :
  foldl Z.max z zs ∈ z :: zs /\ Forall (fun y => (y <= foldl Z.max z zs)%Z) (z :: zs).
Proof.
  revert z; induction zs as [|y zs IH]; intros z; simpl.
  - split; [by left | by repeat constructor].
  - destruct (IH (Z.max z y)) as [Hin Hall].
    apply Forall_cons in Hall as [Hzy Hall]. split.
    + apply elem_of_cons in Hin as [->|Hin]; [|by right; right].
      destruct (Z.max_spec z y) as [[_ ->]|[_ ->]]; [by right; left | by left].
    + repeat constructor; [lia | lia | done].
Qed.

Lemma foldl_min_spec z zs :
  foldl Z.min z zs ∈ z :: zs /\ Forall (fun y => (foldl Z.min z zs <= y)%Z) (z :: zs).
Proof.
  revert z; induction zs as [|y zs IH]; intros z; simpl.
  - split; [by left | by repeat constructor].
  - destruct (IH (Z.min z y)) as [Hin Hall].
    apply Forall_cons in Hall as [Hzy Hall]. split.
    + apply elem_of_cons in Hin as [->|Hin]; [|by right; right].
      destruct (Z.min_spec z y) as [[_ ->]|[_ ->]]; [by left | by right; left].
    + repeat constructor; [lia | lia | done].
Qed.

#[export] Instance Num_inj : Inj eq eq Num.
Proof. by intros ?? [=]. Qed.

(** [Math.max] and [Math.min] of integers do not depend on the order of
    their arguments. *)
Lemma math_max_Permutation zs1 zs2 : zs1 ≡ₚ zs2 -> math_max (Num <$> zs1) = math_max (Num <$> zs2).
Proof.
  intros Hp. destruct zs1 as [|z1 zs1], zs2 as [|z2 zs2];
    try (apply Permutation_length in Hp; discriminate); [done|].
  rewrite !math_max_num. f_equal.
  destruct (foldl_max_spec z1 zs1) as [H1 B1], (foldl_max_spec z2 zs2) as [H2 B2].
  rewrite Hp in H1, B1. rewrite Forall_forall in B1, B2. apply B2 in H1. apply B1 in H2. lia.
Qed.

Lemma math_min_Permutation zs1 zs2 : zs1 ≡ₚ zs2 -> math_min (Num <$> zs1) = math_min (Num <$> zs2).
Proof.
  intros Hp. destruct zs1 as [|z1 zs1], zs2 as [|z2 zs2];
    try (apply Permutation_length in Hp; discriminate); [done|].
  rewrite !math_min_num. f_equal.
  destruct (foldl_min_spec z1 zs1) as [H1 B1], (foldl_min_spec z2 zs2) as [H2 B2].
  rewrite Hp in H1, B1. rewrite Forall_forall in B1, B2. apply B2 in H1. apply B1 in H2. lia.
Qed.

(** Sorting integers with [(a, b) => a - b] does not depend on the
    order of the input, and agrees with a reference merge sort. *)
Lemma js_sort_sub_Permutation zs1 zs2 :
  zs1 ≡ₚ zs2 -> js_sort num_sub (Num <$> zs1) = js_sort num_sub (Num <$> zs2).
Proof.
  intros Hp. destruct (js_sort_sub_sorted zs1) as (ys & -> & Hs & Hys).
  symmetry. apply js_sort_sub_unique; [done|]. by rewrite Hys.
Qed.

Lemma js_sort_sub_merge_sort zs : js_sort num_sub (Num <$> zs) = Num <$> merge_sort Z.le zs.
Proof. apply js_sort_sub_unique; [apply Sorted_merge_sort; apply _ | apply merge_sort_Permutation]. Qed.

(** ** What an engine promises of Array.prototype.sort

    ECMA-262 (23.1.3.30) leaves the sorting algorithm to the engine and
    requires only that the result be a permutation of the array, sorted
    when the comparator is consistent, as [(a, b) => a - b] is on
    integers.  [ArraySort] states these two promises; [js_sort] (an
    insertion sort) and [merge_engine] (a merge sort) are two engines
    that keep them. *)
Class ArraySort (sort : (number -> number -> number) -> list number -> list number) : Prop := {
  array_sort_Permutation cmp l : sort cmp l ≡ₚ l;
  array_sort_sub_sorted zs ys : sort num_sub (Num <$> zs) = Num <$> ys -> Sorted Z.le ys
}.

#[export] Instance js_sort_ArraySort : ArraySort js_sort.
Proof.
  split; [apply js_sort_perm|]. intros zs ys Hys.
  destruct (js_sort_sub_sorted zs) as (ys' & E & Hs & _). rewrite E in Hys.
  apply (inj (fmap Num)) in Hys. by subst.
Qed.

(** SortCompare(x, y) <= 0: [x] may stay before [y]. *)
Definition cmp_le (cmp : number -> number -> number) (x y : number) : Prop :=
  match sort_compare cmp x y with
  | Num z => (z <= 0)%Z
  | NegInf => True
  | _ => False
  end.

#[export] Instance cmp_le_dec cmp : RelDecision (cmp_le cmp).
Proof. intros x y. unfold cmp_le. destruct (sort_compare cmp x y); apply _. Defined.

#[export] Instance cmp_le_sub_total : Total (cmp_le num_sub).
Proof. intros [x| | |] [y| | |]; cbn; auto; lia. Qed.

Definition merge_engine (cmp : number -> number -> number) (l : list number) : list number :=
  merge_sort (cmp_le cmp) l.

#[export] Instance merge_engine_ArraySort : ArraySort merge_engine.
Proof.
  split; [intros; apply merge_sort_Permutation|]. intros zs ys Hys.
  pose proof (Sorted_merge_sort (cmp_le num_sub) (Num <$> zs)) as Hs. unfold merge_engine in Hys.
  rewrite Hys in Hs. revert Hs. apply Sorted_fmap_inv. intros x y. cbn. lia.
Qed.

Section ArraySortLemmas.
Context (sort : (number -> number -> number) -> list number -> list number) `{!ArraySort sort}.

(** Every engine sorts integers with [(a, b) => a - b] as [js_sort] does. *)
Lemma array_sort_sub zs : sort num_sub (Num <$> zs) = js_sort num_sub (Num <$> zs).
Proof.
  destruct (Permutation_fmap_inv Num (sort num_sub (Num <$> zs)) zs (array_sort_Permutation _ _))
    as (ys & E & Hp).
  rewrite E. symmetry. apply js_sort_sub_unique; [|done]. by apply (array_sort_sub_sorted zs).
Qed.
End ArraySortLemmas.

End JsNumber.
