(* ===== verification/JsCollections.v ===== *)
(** ECMAScript collections as src/index.ts uses them:
    [Array.prototype.includes], [new Set(xs).size], and a plain object
    [{}] used as a tally ([o[k] = (o[k] || 0) + 1]) and enumerated with
    [for (k in o)].  The elements the module stores are strings or
    [undefined] ([option string]); SameValueZero on them is equality.

    The object is its list of own properties in creation order.  The
    [for-in] order is the one of OrdinaryOwnPropertyKeys (ECMA-262
    10.1.11.1): array-index keys in ascending numeric order, then the
    other string keys in creation order.  The keys the module creates
    are "2".."9" (array indices), "T", "J", "Q", "K", "A" and
    "undefined" (not indices), so the order matters.  Editions before
    ES2020 left the order to the engine; the class [ForInOrder] states
    what every engine promises (each key once), with [for_in_keys] and
    the creation order [obj_keys] as instances. *)

From S2P Require Import Prelude JsNumber.
Import JsNumber.

Module JsCollections.

(** ** Values and property keys *)

(** A JavaScript value read from a string: a string or [undefined]. *)
Abbreviation jsstr := (option string).

(** ToPropertyKey: [o[undefined]] is [o["undefined"]]. *)
Definition to_key (v : jsstr) : string :=
  match v with
  | Some s => s
  | None => "undefined"
  end.

(** [xs.includes(v)] for an array of strings. *)
Definition includes (xs : list string) (v : jsstr) : bool :=
  match v with
  | Some s => bool_decide (s ∈ xs)
  | None => false
  end.

(** ** Set *)

(** [new Set(xs)]: the distinct elements in order of first occurrence. *)
Fixpoint set_go {A} `{EqDecision A} (s l : list A) : list A :=
  match l with
  | [] => s
  | x :: l' => set_go (if bool_decide (x ∈ s) then s else s ++ [x]) l'
  end.

Definition set_size {A} `{EqDecision A} (l : list A) : nat := length (set_go [] l).

(** ** Objects used as tallies *)

Definition jsobj := list (string * number).

Fixpoint obj_get (o : jsobj) (k : string) : option number :=
  match o with
  | [] => None
  | (k', v) :: o' => if bool_decide (k = k') then Some v else obj_get o' k
  end.

(** Assignment updates an existing property in place and appends a new
    one at the end of the creation order. *)
Fixpoint obj_set (o : jsobj) (k : string) (v : number) : jsobj :=
  match o with
  | [] => [(k, v)]
  | (k', v') :: o' => if bool_decide (k = k') then (k, v) :: o' else (k', v') :: obj_set o' k v
  end.

(** [o[k] = (o[k] || 0) + 1] *)
Definition tally_incr (o : jsobj) (k : string) : jsobj :=
  obj_set o k (num_add (or_zero (obj_get o k)) (Num 1)).

Fixpoint all_digits (s : string) : bool :=
  match s with
  | EmptyString => true
  | String c s' => bool_decide (48 <= nat_of_ascii c <= 57) && all_digits s'
  end.

Fixpoint decimal_value (s : string) (acc : Z) : Z :=
  match s with
  | EmptyString => acc
  | String c s' => decimal_value s' (10 * acc + Z.of_nat (nat_of_ascii c) - 48)
  end.

(** An array index is the canonical decimal form of an integer in
    [0, 2^32 - 2]: digits only, no leading zero except "0" itself. *)
Definition array_index (k : string) : option Z :=
  match k with
  | EmptyString => None
  | String "0" EmptyString => Some 0%Z
  | String "0" _ => None
  | _ =>
      if all_digits k then
        let v := decimal_value k 0 in
        if (v <? 4294967295)%Z then Some v else None
      else None
  end.

Definition index_keys (o : jsobj) : list (Z * string) :=
  omap (fun '(k, _) => (fun i => (i, k)) <$> array_index k) o.

Definition index_le (a b : Z * string) : Prop := (a.1 <= b.1)%Z.

#[export] Instance index_le_dec : RelDecision index_le.
Proof. intros a b. unfold index_le. apply _. Defined.

(** The keys [for (k in o)] visits, in order. *)
Definition for_in_keys (o : jsobj) : list string :=
  (snd <$> merge_sort index_le (index_keys o))
  ++ omap (fun '(k, _) => match array_index k with Some _ => None | None => Some k end) o.

(** ** Lemmas on Set *)

Section SetLemmas.
Context {A : Type} `{EqDecision A}.
Implicit Types (s l : list A) (x : A).

Lemma elem_of_set_go x s l : x ∈ set_go s l <-> x ∈ s \/ x ∈ l.
Proof.
  revert s; induction l as [|y l IH]; intros s; simpl; [set_solver|].
  rewrite IH. case_bool_decide; set_solver.
Qed.

Lemma set_go_snoc s l x :
  set_go s (l ++ [x]) = let s' := set_go s l in if bool_decide (x ∈ s') then s' else s' ++ [x].
Proof. revert s; induction l as [|y l IH]; intros s; simpl; auto. Qed.

(** The size of the set is the length exactly when there is no
    duplicate, and smaller otherwise. *)
Lemma length_set_go s l :
  NoDup s ->
  length (set_go s l) <= length s + length l /\
  (length (set_go s l) = length s + length l <-> NoDup (s ++ l)).
Proof.
  revert s; induction l as [|x l IH]; intros s Hs; simpl.
  - rewrite app_nil_r. split; [lia | split; auto; lia].
  - case_bool_decide as Hx.
    + destruct (IH s Hs) as [Hle _]. split; [lia|]. split; [lia|].
      intros Hnd. apply NoDup_app in Hnd as (_ & Hdis & Hnd).
      exfalso. apply (Hdis x Hx). by left.
    + destruct (IH (s ++ [x])) as [Hle Hiff].
      { apply NoDup_app. repeat split; [done | set_solver | by apply NoDup_singleton]. }
      rewrite length_app in Hle, Hiff. simpl in Hle, Hiff.
      rewrite <- app_assoc in Hiff. simpl in Hiff. split; [lia|].
      rewrite <- Hiff. lia.
Qed.

Lemma set_size_NoDup l : set_size l = length l <-> NoDup l.
Proof.
  unfold set_size. destruct (length_set_go [] l) as [_ H]; [constructor|]. exact H.
Qed.

Lemma NoDup_set_go s l : NoDup s -> NoDup (set_go s l).
Proof.
  revert s; induction l as [|x l IH]; intros s Hs; simpl; [done|].
  apply IH. case_bool_decide; [done|].
  apply NoDup_app. repeat split; [done | set_solver | by apply NoDup_singleton].
Qed.

(** A set built from [l] has one element exactly when [l] is a
    non-empty list of equal elements. *)
Lemma set_size_one l : set_size l = 1 <-> exists a, l <> [] /\ Forall (eq a) l.
Proof.
  unfold set_size. split.
  - destruct (set_go [] l) as [|a [|b r]] eqn:E; simpl; try lia. intros _.
    exists a. split.
    + intros ->. discriminate.
    + apply Forall_forall. intros y Hy.
      assert (Hy' : y ∈ set_go [] l) by (apply elem_of_set_go; by right).
      rewrite E in Hy'. set_solver.
  - intros (a & Hne & Hall).
    assert (Hnd : NoDup (set_go [] l)) by (apply NoDup_set_go; constructor).
    destruct (set_go [] l) as [|b [|c r]] eqn:E; [|done|].
    + destruct l as [|y l]; [done|].
      assert (y ∈ set_go [] (y :: l)) as Hy by (apply elem_of_set_go; right; left).
      rewrite E in Hy. set_solver.
    + assert (Hb : b ∈ set_go [] l) by (rewrite E; left).
      assert (Hc : c ∈ set_go [] l) by (rewrite E; right; left).
      apply elem_of_set_go in Hb as [Hb|Hb], Hc as [Hc|Hc]; try set_solver.
      rewrite Forall_forall in Hall.
      apply Hall in Hb, Hc. subst. apply NoDup_cons in Hnd as [Hnd _]. set_solver.
Qed.
End SetLemmas.

(** ** Lemmas on objects *)

Definition obj_keys (o : jsobj) : list string := fst <$> o.

Lemma obj_get_set o k v k' :
  obj_get (obj_set o k v) k' = if bool_decide (k' = k) then Some v else obj_get o k'.
Proof.
  induction o as [|[k1 v1] o IH]; simpl; [done|].
  repeat case_bool_decide; simpl; repeat case_bool_decide; subst; congruence.
Qed.

Lemma obj_keys_set o k v :
  obj_keys (obj_set o k v) = if bool_decide (k ∈ obj_keys o) then obj_keys o else obj_keys o ++ [k].
Proof.
  unfold obj_keys. induction o as [|[k1 v1] o IH]; [done|].
  cbn [obj_set]. rewrite fmap_cons. cbn [fst].
  destruct (decide (k = k1)) as [->|Hne].
  - rewrite !bool_decide_true by set_solver. done.
  - rewrite bool_decide_false by done. rewrite fmap_cons, IH. cbn [fst].
    destruct (decide (k ∈ fst <$> o)).
    + rewrite !bool_decide_true by set_solver. done.
    + rewrite !bool_decide_false by set_solver. done.
Qed.

(** The keys [for (k in o)] visits are the object's keys, reordered. *)
Lemma for_in_keys_perm o : for_in_keys o ≡ₚ obj_keys o.
Proof.
  unfold for_in_keys, obj_keys. rewrite merge_sort_Permutation.
  induction o as [|[k v] o IH]; simpl; [done|].
  unfold index_keys in *. simpl. destruct (array_index k); simpl.
  - by rewrite IH.
  - by rewrite <- Permutation_middle, IH.
Qed.

(** ** What an engine promises of for-in

    ES2020 fixes the order of [for (k in o)] ([for_in_keys]); earlier
    editions left it to the engine and required only that each own key
    be visited once.  [ForInOrder] states that promise: the keys visited
    are the object's keys, in some order.  [for_in_keys] and the plain
    creation order [obj_keys] are instances. *)
Class ForInOrder (enum : jsobj -> list string) : Prop := {
  for_in_order_perm o : enum o ≡ₚ obj_keys o
}.

#[export] Instance for_in_keys_order : ForInOrder for_in_keys.
Proof. split. apply for_in_keys_perm. Qed.

#[export] Instance obj_keys_order : ForInOrder obj_keys.
Proof. by split. Qed.

Definition tally (ks : list string) : jsobj := foldl tally_incr [] ks.

Lemma tally_snoc ks k : tally (ks ++ [k]) = tally_incr (tally ks) k.
Proof. unfold tally. by rewrite foldl_app. Qed.

(** After tallying [ks], key [k] holds its number of occurrences, and is
    absent when it never occurs. *)
Lemma obj_get_tally ks k :
  obj_get (tally ks) k =
  if decide (occ k ks = 0) then None else Some (Num (Z.of_nat (occ k ks))).
Proof.
  induction ks as [|x ks IH] using rev_ind; [done|].
  rewrite tally_snoc. unfold tally_incr. rewrite obj_get_set, occ_app. cbn [occ].
  destruct (decide (k = x)) as [->|Hne].
  - rewrite bool_decide_true, IH by done.
    repeat case_decide; simpl; try lia; try congruence; do 2 f_equal; lia.
  - rewrite bool_decide_false, IH by done.
    repeat case_decide; try lia; try congruence; do 2 f_equal; lia.
Qed.

(** The keys of the tally are the set of tallied keys, in the same order. *)
Lemma obj_keys_tally ks : obj_keys (tally ks) = set_go [] ks.
Proof.
  induction ks as [|x ks IH] using rev_ind; [done|].
  rewrite tally_snoc, set_go_snoc. unfold tally_incr. by rewrite obj_keys_set, IH.
Qed.

End JsCollections.
