(* ===== verification/Cards.v ===== *)
(** Hand parsing and validation, src/index.ts lines 20-60 and 92-151:
    the constant tables [values] and [suites], [isValidHand],
    [getHandValues], [getHandSuits] and [getHandValuesNumericValue].
    A hand is the raw string; a token's value and suit are its first and
    second characters, [undefined] when the token is too short.
    [isValidHand_with] is [isValidHand] for any for-in key order, proved
    against the interface [ForInOrder]; [isValidHand] is its instance on
    the ES2020 order [for_in_keys]. *)

From S2P Require Import Prelude JsString JsNumber JsCollections.
Import JsString JsNumber JsCollections.

Module Cards.

(** index.ts 20-34 *)
Definition values : list string :=
  ["2"; "3"; "4"; "5"; "6"; "7"; "8"; "9"; "T"; "J"; "Q"; "K"; "A"].

(** index.ts 35 *)
Definition suites : list string := ["S"; "H"; "D"; "C"].

Definition invalid_hand : string := "Invalid hand!".

(** index.ts 41-49: [for (let hand of splitHand)], reading [hand[0]] and
    [hand[1]], counting the value or throwing. *)
Fixpoint count_tokens (splitHand : list string) (valueCounts : jsobj) : completion jsobj :=
  match splitHand with
  | [] => Normal valueCounts
  | hand :: rest =>
      let value := char_at hand 0 in
      let suit := char_at hand 1 in
      if includes values value && includes suites suit
      then count_tokens rest (tally_incr valueCounts (to_key value))
      else Throw invalid_hand
  end.

(** index.ts 51-55: [for (let value in valueCounts)], throwing on a
    count [=== 5]. *)
Fixpoint check_counts (keys : list string) (valueCounts : jsobj) : completion unit :=
  match keys with
  | [] => Normal tt
  | value :: rest =>
      match obj_get valueCounts value with
      | Some n => if num_strict_eqb n (Num 5) then Throw invalid_hand else check_counts rest valueCounts
      | None => check_counts rest valueCounts
      end
  end.

(** index.ts 37-60, on an engine whose [for (value in valueCounts)]
    visits the keys in the order [enum]. *)
Definition isValidHand_with (enum : jsobj -> list string) (pokerHand : string) : completion bool :=
  let splitHand := split_space pokerHand in
  if Nat.eqb (length splitHand) 5 then
    (valueCounts <- count_tokens splitHand [] ;;
     _ <- check_counts (enum valueCounts) valueCounts ;;
     Normal true)%js
  else Throw invalid_hand.

(** [isValidHand] with the for-in order of ES2020; theorem
    [isValidHand_order_independent] shows every order gives the same. *)
Definition isValidHand (pokerHand : string) : completion bool := isValidHand_with for_in_keys pokerHand.

(** index.ts 92-99 *)
Definition getHandValues (pokerHand : string) : list jsstr :=
  (fun hand => char_at hand 0) <$> split_space pokerHand.

(** index.ts 101-108 *)
Definition getHandSuits (pokerHand : string) : list jsstr :=
  (fun hand => char_at hand 1) <$> split_space pokerHand.

(** index.ts 136-151: the [switch] on the value, [parseInt] otherwise
    ([parseInt(undefined)] reads the string "undefined"). *)
Definition getHandValuesNumericValue (value : jsstr) : number :=
  match value with
  | Some "T" => Num 10
  | Some "J" => Num 11
  | Some "Q" => Num 12
  | Some "K" => Num 13
  | Some "A" => Num 14
  | _ => parseInt (to_key value)
  end.

(** ** What a valid hand is *)

(** A token is accepted when its first character is a value symbol and
    its second a suit symbol; what follows them is not looked at. *)
Definition token_ok (t : string) : Prop :=
  match char_at t 0, char_at t 1 with
  | Some v, Some u => v ∈ values /\ u ∈ suites
  | _, _ => False
  end.

#[export] Instance token_ok_dec t : Decision (token_ok t).
Proof. unfold token_ok. repeat case_match; apply _. Defined.

(** The condition [isValidHand] checks: five tokens, each accepted, not
    all with the same value symbol. *)
Definition hand_ok (toks : list string) : Prop :=
  length toks = 5 /\ Forall token_ok toks /\
  ~ exists v, Forall (fun t => char_at t 0 = Some v) toks.

(** The key a token's value is tallied under. *)
Definition rank_key (t : string) : string := to_key (char_at t 0).

(** ** Lemmas *)

Lemma includes_token t :
  includes values (char_at t 0) && includes suites (char_at t 1) = bool_decide (token_ok t).
Proof.
  apply Bool.eq_iff_eq_true. rewrite andb_true_iff, bool_decide_eq_true.
  unfold token_ok, includes.
  destruct (char_at t 0), (char_at t 1); rewrite ?bool_decide_eq_true; naive_solver.
Qed.

Lemma count_tokens_ok toks o :
  Forall token_ok toks -> count_tokens toks o = Normal (foldl tally_incr o (rank_key <$> toks)).
Proof.
  intros Hok. revert o; induction Hok as [|t toks Ht Hok IH]; intros o; [done|].
  cbn [count_tokens]. rewrite includes_token, bool_decide_true by done. apply IH.
Qed.

Lemma count_tokens_bad toks o :
  ~ Forall token_ok toks -> count_tokens toks o = Throw invalid_hand.
Proof.
  revert o; induction toks as [|t toks IH]; intros o Hbad; cbn [count_tokens].
  - by destruct Hbad.
  - rewrite includes_token. case_bool_decide; [|done].
    apply IH. intros Hf. apply Hbad. by constructor.
Qed.

Lemma check_counts_spec keys o :
  check_counts keys o =
  if bool_decide (Exists (fun k => obj_get o k = Some (Num 5)) keys) then Throw invalid_hand else Normal tt.
Proof.
  induction keys as [|k keys IH]; cbn [check_counts].
  - rewrite bool_decide_false; [done|]. by inversion 1.
  - rewrite IH. destruct (obj_get o k) as [n|] eqn:E; [rewrite num_strict_eqb_num|];
      repeat case_bool_decide; rewrite ?Exists_cons in *; naive_solver.
Qed.

(** Some key of a tally holds 5 exactly when some key was tallied 5 times. *)
Lemma tally_has_five ks :
  Exists (fun k => obj_get (tally ks) k = Some (Num 5)) (for_in_keys (tally ks)) <->
  exists k, occ k ks = 5.
Proof.
  rewrite Exists_exists. setoid_rewrite obj_get_tally. split.
  - intros (k & _ & Hk). exists k. case_decide; [done|]. injection Hk. lia.
  - intros [k Hk]. exists k. split.
    + rewrite for_in_keys_perm, obj_keys_tally, elem_of_set_go. right. apply occ_pos. lia.
    + rewrite decide_False by lia. by rewrite Hk.
Qed.

Lemma rank_key_ok t k : token_ok t -> rank_key t = k <-> char_at t 0 = Some k.
Proof.
  unfold token_ok, rank_key. intros Hok. destruct (char_at t 0); [|by destruct Hok].
  simpl. split; [by intros -> | by intros [= ->]].
Qed.

Lemma five_of_a_kind toks :
  length toks = 5 -> Forall token_ok toks ->
  (exists k, occ k (rank_key <$> toks) = 5) <-> exists v, Forall (fun t => char_at t 0 = Some v) toks.
Proof.
  intros Hlen Hok. apply exist_proper. intros k.
  rewrite <- Hlen, <- (length_fmap rank_key toks), occ_eq_length, Forall_fmap.
  split; intros H; eapply Forall_impl; [apply Forall_and; split; [exact H | exact Hok]| |
    apply Forall_and; split; [exact H | exact Hok]|]; simpl; intros t [Ht Htok];
    by apply (rank_key_ok t k Htok).
Qed.

(** Every call either accepts a hand that satisfies [hand_ok] or throws
    "Invalid hand!" on one that does not. *)
Lemma isValidHand_cases s :
  (hand_ok (split_space s) /\ isValidHand s = Normal true) \/
  (~ hand_ok (split_space s) /\ isValidHand s = Throw invalid_hand).
Proof.
  unfold isValidHand, isValidHand_with, hand_ok.
  destruct (Nat.eqb_spec (length (split_space s)) 5) as [Hlen|Hlen]; [|right; naive_solver].
  destruct (decide (Forall token_ok (split_space s))) as [Hok|Hok];
    [|right; rewrite count_tokens_bad by done; naive_solver].
  rewrite count_tokens_ok by done. cbn [bind]. rewrite check_counts_spec.
  change (foldl tally_incr [] ?ks) with (tally ks).
  case_bool_decide as H5; rewrite tally_has_five, five_of_a_kind in H5 by done;
    [right | left]; naive_solver.
Qed.

(** ** Theorems *)

(** C1. [isValidHand] returns [true] exactly on the strings that split on
    " " into five tokens whose first character is one of the thirteen
    value symbols and whose second character is one of the four suit
    symbols, and whose value symbols are not all the same. *)
Theorem isValidHand_true s : isValidHand s = Normal true <-> hand_ok (split_space s).
Proof. destruct (isValidHand_cases s) as [[H ->]|[H ->]]; naive_solver. Qed.

(** C2. On every other string [isValidHand] throws "Invalid hand!": it
    never returns [false]. *)
Theorem isValidHand_throws s :
  ~ hand_ok (split_space s) -> isValidHand s = Throw invalid_hand.
Proof. destruct (isValidHand_cases s) as [[H _]|[_ ->]]; naive_solver. Qed.

Lemma isValidHand_throws_witness :
  ~ hand_ok (split_space "AH AC AH AH AS") /\ isValidHand "AH AC AH AH AS" = Throw invalid_hand.
Proof.
  assert (Hn : ~ hand_ok (split_space "AH AC AH AH AS")).
  { intros (_ & _ & Hall). apply Hall. exists "A". repeat constructor. }
  split; [exact Hn | apply (isValidHand_throws _ Hn)].
Defined.

(** ** Only the first two characters of a token count *)

Definition token_view (t : string) : jsstr * jsstr := (char_at t 0, char_at t 1).

Definition view_ok (w : jsstr * jsstr) : Prop :=
  match w with
  | (Some v, Some u) => v ∈ values /\ u ∈ suites
  | _ => False
  end.

Definition hand_view_ok (ws : list (jsstr * jsstr)) : Prop :=
  length ws = 5 /\ Forall view_ok ws /\ ~ exists v, Forall (fun w => w.1 = Some v) ws.

Lemma hand_ok_view toks : hand_ok toks <-> hand_view_ok (token_view <$> toks).
Proof.
  unfold hand_ok, hand_view_ok. rewrite length_fmap, Forall_fmap.
  setoid_rewrite Forall_fmap. reflexivity.
Qed.

(** C3. [isValidHand] reads only the first two characters of each token:
    two strings whose tokens agree on them get the same verdict, so a
    token such as "2Hx" is accepted although the spec requires exactly
    two characters. *)
Theorem isValidHand_token_view s1 s2 :
  token_view <$> split_space s1 = token_view <$> split_space s2 ->
  isValidHand s1 = isValidHand s2.
Proof.
  intros Hv. pose proof (hand_ok_view (split_space s1)) as H1.
  pose proof (hand_ok_view (split_space s2)) as H2. rewrite Hv in H1.
  destruct (isValidHand_cases s1) as [[? ->]|[? ->]], (isValidHand_cases s2) as [[? ->]|[? ->]];
    naive_solver.
Qed.

Lemma isValidHand_token_view_witness :
  token_view <$> split_space "2Hx 3H 4H 5H 6H" = token_view <$> split_space "2H 3H 4H 5H 6H" /\
  isValidHand "2Hx 3H 4H 5H 6H" = isValidHand "2H 3H 4H 5H 6H".
Proof. split; [reflexivity | apply isValidHand_token_view; reflexivity]. Defined.

(** ** Re-serialising values and suits *)

(** A card written back from its value and suit symbols. *)
Definition card_text (v u : jsstr) : string := default EmptyString v +:+ default EmptyString u.

Lemma card_text_two t : String.length t = 2 -> card_text (char_at t 0) (char_at t 1) = t.
Proof. destruct t as [|a [|b [|c t]]]; simpl; try lia. done. Qed.

(** C4. Writing back each card from [getHandValues] and [getHandSuits]
    and joining with " " gives the hand back, for any hand whose tokens
    have two characters. *)
Theorem values_suits_roundtrip s :
  Forall (fun t => String.length t = 2) (split_space s) ->
  join_space (zip_with card_text (getHandValues s) (getHandSuits s)) = s.
Proof.
  intros H2. unfold getHandValues, getHandSuits.
  rewrite zip_with_fmap_l, zip_with_fmap_r, zip_with_diag.
  rewrite (list_fmap_ext _ id); [by rewrite list_fmap_id, join_split_space|].
  intros i t Ht. apply card_text_two. exact (Forall_lookup_1 _ _ _ _ H2 Ht).
Qed.

Lemma values_suits_roundtrip_witness :
  Forall (fun t => String.length t = 2) (split_space "AH 2H 3C 4S 5D") /\
  join_space (zip_with card_text (getHandValues "AH 2H 3C 4S 5D") (getHandSuits "AH 2H 3C 4S 5D"))
  = "AH 2H 3C 4S 5D".
Proof.
  assert (H : Forall (fun t => String.length t = 2) (split_space "AH 2H 3C 4S 5D")) by (repeat constructor).
  split; [exact H | exact (values_suits_roundtrip _ H)].
Defined.

(** The spec's round trip fails on a hand the code accepts. *)
Lemma values_suits_roundtrip_long_token :
  isValidHand "2Hx 3H 4H 5H 6H" = Normal true /\
  join_space (zip_with card_text (getHandValues "2Hx 3H 4H 5H 6H") (getHandSuits "2Hx 3H 4H 5H 6H"))
  <> "2Hx 3H 4H 5H 6H".
Proof. split; [reflexivity | vm_compute; congruence]. Qed.

(** ** Numeric values *)

(** C5. [getHandValuesNumericValue] maps the i-th symbol of [values] to
    [i + 2]: "2" to 2, ..., "9" to 9, "T" to 10, ..., "A" to 14. *)
Theorem getHandValuesNumericValue_rank i v :
  values !! i = Some v -> getHandValuesNumericValue (Some v) = Num (Z.of_nat i + 2).
Proof.
  intros H. do 13 (destruct i as [|i]; [injection H as <-; reflexivity|]). discriminate.
Qed.

(** Every value symbol has a number between 2 and 14. *)
Lemma values_numeric v :
  v ∈ values -> exists n, getHandValuesNumericValue (Some v) = Num n /\ (2 <= n <= 14)%Z.
Proof.
  revert v. apply Forall_forall.
  unfold values. repeat (constructor; [eexists; split; [reflexivity | vm_compute; split; discriminate]|]). constructor.
Qed.

(** The numeric values of a valid hand are five integers in [2, 14]. *)
Lemma valid_numeric s :
  isValidHand s = Normal true ->
  exists zs, getHandValuesNumericValue <$> getHandValues s = Num <$> zs /\
             length zs = 5 /\ Forall (fun z => (2 <= z <= 14)%Z) zs.
Proof.
  intros Hv. destruct (isValidHand_cases s) as [[(Hlen & Hok & _) _]|[_ Ht]]; [|congruence].
  unfold getHandValues. rewrite <- Hlen. clear Hv Hlen.
  induction Hok as [|t toks Ht Hok IH]; [by exists []|].
  destruct IH as (zs & Hzs & Hlen & Hb).
  unfold token_ok in Ht. destruct (char_at t 0) as [v|] eqn:Hc; [|done].
  destruct (char_at t 1); [|done]. destruct Ht as [Hv _].
  destruct (values_numeric v Hv) as (n & Hn & Hnb).
  exists (n :: zs). rewrite !fmap_cons, Hc, Hn, Hzs. simpl. auto.
Qed.

Lemma getHandValuesNumericValue_rank_witness :
  values !! 8 = Some "T" /\ getHandValuesNumericValue (Some "T") = Num 10.
Proof. split; [reflexivity | apply (getHandValuesNumericValue_rank 8); reflexivity]. Defined.

(** ** The element type of getHandValues and getHandSuits *)

Lemma char_at_none t i : char_at t i = None <-> String.length t <= i.
Proof.
  unfold char_at. revert i; induction t as [|c t IH]; intros [|i]; simpl.
  - split; [intros _; lia | done].
  - split; [intros _; lia | done].
  - split; [discriminate | lia].
  - transitivity (String.length t <= i); [exact (IH i) | lia].
Qed.

(** C21. TypeScript declares both results [string[]], but an element is
    [undefined] exactly where a token is too short: [getHandValues]
    yields one for an empty token (two spaces in a row, a space at
    either end, or the empty string) and [getHandSuits] for a token of
    fewer than two characters. *)
Theorem hand_views_undefined s :
  (None ∈ getHandValues s <-> EmptyString ∈ split_space s) /\
  (None ∈ getHandSuits s <-> exists t, t ∈ split_space s /\ String.length t < 2).
Proof.
  unfold getHandValues, getHandSuits. rewrite !list_elem_of_fmap. split; split.
  - intros (t & Ht & Hin). symmetry in Ht. apply char_at_none in Ht.
    destruct t; [done | simpl in Ht; lia].
  - intros H. by exists EmptyString.
  - intros (t & Ht & Hin). symmetry in Ht. apply char_at_none in Ht. exists t. split; [done | lia].
  - intros (t & Hin & Ht). exists t. split; [symmetry; apply char_at_none; lia | done].
Qed.

Lemma hand_views_undefined_witness :
  None ∈ getHandValues "2H  3H" /\ None ∈ getHandSuits "2H 3".
Proof.
  split.
  - apply (proj2 (proj1 (hand_views_undefined "2H  3H"))). right. left.
  - apply (proj2 (proj2 (hand_views_undefined "2H 3"))). exists "3". split; [right; left | simpl; lia].
Defined.

(** ** The for-in order does not matter to isValidHand *)

Lemma check_counts_Permutation keys1 keys2 o :
  keys1 ≡ₚ keys2 -> check_counts keys1 o = check_counts keys2 o.
Proof.
  intros Hp. rewrite !check_counts_spec.
  erewrite (bool_decide_ext _ (Exists _ keys2)); [done|]. by rewrite Hp.
Qed.

(** C38. [isValidHand] gives the same result on every engine whose
    [for (value in valueCounts)] visits each key once ([ForInOrder]),
    whether it keeps the ES2020 order or not: the loop throws when some
    key has a count of 5, in whatever order it meets it. *)
Theorem isValidHand_order_independent enum `{!ForInOrder enum} s :
  isValidHand_with enum s = isValidHand s.
Proof.
  unfold isValidHand, isValidHand_with. cbv zeta. destruct (Nat.eqb _ _); [|done].
  destruct (count_tokens _ []) as [o|m]; cbn [bind]; [|done].
  rewrite (check_counts_Permutation (enum o) (for_in_keys o)); [done|].
  etrans; [apply for_in_order_perm | symmetry; apply for_in_order_perm].
Qed.

Lemma isValidHand_order_independent_witness :
  isValidHand_with obj_keys "KH KD 2S KC KS" = isValidHand "KH KD 2S KC KS".
Proof. apply (isValidHand_order_independent obj_keys). Defined.

End Cards.
