(* ===== verification/Predicates.v ===== *)
(** The classifier helpers and the comparator of src/index.ts:
    [hasAPair] (62-69), [getPairSize] (71-90), [isAFlush] (110-117),
    [isAStraight] (119-134), [getHighCard] (153-159), [getLowCard]
    (161-167), [comparePokerHands] (169) and the fixture [pokerHands]
    (1-18).  None of them validates its input: each reads the hand
    through [getHandValues] or [getHandSuits].  [isAStraight_with] is
    [isAStraight] for any engine's sort, proved against the interface
    [ArraySort]; [isAStraight] is its instance on [js_sort].  Likewise
    [getPairSize_with] is [getPairSize] for any for-in key order
    ([ForInOrder]). *)

From S2P Require Import Prelude JsString JsNumber JsCollections Cards.
Import JsString JsNumber JsCollections Cards.

Module Predicates.

(** index.ts 1-18 *)
Definition pokerHands : list (list string) :=
  [["2H 3H 4H 5H 6H"; "KS AS TS QS JS"];
   ["2H 3H 4H 5H 6H"; "AS AD AC AH JD"];
   ["AS AH 2H AD AC"; "JS JD JC JH 3D"];
   ["2S AH 2H AS AC"; "JS JD JC JH AD"];
   ["2S AH 2H AS AC"; "2H 3H 5H 6H 7H"];
   ["AS 3S 4S 8S 2S"; "2H 3H 5H 6H 7H"];
   ["2H 3H 5H 6H 7H"; "2S 3H 4H 5S 6C"];
   ["2S 3H 4H 5S 6C"; "3D 4C 5H 6H 2S"];
   ["2S 3H 4H 5S 6C"; "AH AC 5H 6H AS"];
   ["2S 2H 4H 5S 4C"; "AH AC 5H 6H AS"];
   ["2S 2H 4H 5S 4C"; "AH AC 5H 6H 7S"];
   ["6S AD 7H 4S AS"; "AH AC 5H 6H 7S"];
   ["2S AH 4H 5S KC"; "AH AC 5H 6H 7S"];
   ["2S 3H 6H 7S 9C"; "7H 3C TH 6H 9S"];
   ["4S 5H 6H TS AC"; "3S 5H 6H TS AC"];
   ["2S AH 4H 5S 6C"; "AD 4C 5H 6H 2C"]].

(** index.ts 62-69: [handValues.length !== new Set(handValues).size] *)
Definition hasAPair (pokerHand : string) : bool :=
  let handValues := getHandValues pokerHand in
  if negb (Nat.eqb (length handValues) (set_size handValues)) then true else false.

(** index.ts 75-77: [handValues.forEach(value => valueCounts[value] = ...)] *)
Definition count_values (handValues : list jsstr) : jsobj :=
  foldl (fun valueCounts value => tally_incr valueCounts (to_key value)) [] handValues.

(** index.ts 79-87: [for (let value in valueCounts)]; a count of 4 sets
    [pairSize] to 6, any other count above 1 is added to it. *)
Fixpoint pair_size_loop (keys : list string) (valueCounts : jsobj) (pairSize : number) : number :=
  match keys with
  | [] => pairSize
  | value :: rest =>
      match obj_get valueCounts value with
      | Some n =>
          if num_ltb (Num 1) n then
            if num_strict_eqb n (Num 4) then pair_size_loop rest valueCounts (Num 6)
            else pair_size_loop rest valueCounts (num_add pairSize n)
          else pair_size_loop rest valueCounts pairSize
      | None => pair_size_loop rest valueCounts pairSize
      end
  end.

(** index.ts 71-90, on an engine whose [for (let value in valueCounts)]
    visits the keys in the order [enum]. *)
Definition getPairSize_with (enum : jsobj -> list string) (pokerHand : string) : number :=
  let handValues := getHandValues pokerHand in
  let valueCounts := count_values handValues in
  pair_size_loop (enum valueCounts) valueCounts (Num 0).

(** [getPairSize] with the for-in order of ES2020. *)
Definition getPairSize (pokerHand : string) : number := getPairSize_with for_in_keys pokerHand.

(** index.ts 110-117: [new Set(handSuits).size === 1] *)
Definition isAFlush (pokerHand : string) : bool :=
  let handSuits := getHandSuits pokerHand in
  if Nat.eqb (set_size handSuits) 1 then true else false.

(** index.ts 153-159 *)
Definition getHighCard (pokerHand : string) : number :=
  let handValues := getHandValues pokerHand in
  let numericHandValues := getHandValuesNumericValue <$> handValues in
  math_max numericHandValues.

(** index.ts 161-167 *)
Definition getLowCard (pokerHand : string) : number :=
  let handValues := getHandValues pokerHand in
  let numericHandValues := getHandValuesNumericValue <$> handValues in
  math_min numericHandValues.

(** [sortedNumValues[i]]; reading past the end gives [undefined], which
    subtraction turns into NaN. *)
Definition elem_at (l : list number) (i : nat) : number := default NaN (l !! i).

(** index.ts 127-133: [for (let i = 0; i < sortedNumValues.length - 1; i++)]
    with an early [return false]; [fuel] bounds the iterations and
    [length sortedNumValues] of them are enough (lemma
    [straight_loop_fuel]). *)
Fixpoint straight_loop (sortedNumValues : list number) (i fuel : nat) : bool :=
  match fuel with
  | O => true
  | S fuel' =>
      if (Z.of_nat i <? Z.of_nat (length sortedNumValues) - 1)%Z then
        if num_strict_eqb (num_sub (elem_at sortedNumValues i) (elem_at sortedNumValues (S i))) (Num (-1))
        then straight_loop sortedNumValues (S i) fuel'
        else false
      else true
  end.

(** index.ts 119-134, on an engine whose [Array.prototype.sort] is
    [sort].  [highCard] and [lowCard] are computed and not used, as in
    the source. *)
Definition isAStraight_with (sort : (number -> number -> number) -> list number -> list number)
    (pokerHand : string) : bool :=
  let handValues := getHandValues pokerHand in
  let numericHandValues := getHandValuesNumericValue <$> handValues in
  let sortedNumValues := sort num_sub numericHandValues in
  let highCard := getHighCard pokerHand in
  let lowCard := getLowCard pokerHand in
  straight_loop sortedNumValues 0 (length sortedNumValues).

(** [isAStraight] on the engine of JsNumber; theorem
    [isAStraight_engine_independent] shows every engine gives the same. *)
Definition isAStraight (pokerHand : string) : bool := isAStraight_with js_sort pokerHand.

(** index.ts 169: the body is empty, so every call returns [undefined]
    ([None]). *)
Definition comparePokerHands (handOne handTwo : string) : option number := None.

(** ** hasAPair and isAFlush *)

Lemma getHandSuits_nonempty s : getHandSuits s <> [].
Proof. unfold getHandSuits. intros H. apply fmap_nil_inv in H. by apply (split_space_nonempty s). Qed.

(** C6. [hasAPair] is duplicate detection: it holds exactly when two
    tokens have the same value symbol (or both lack one). *)
Theorem hasAPair_spec s : hasAPair s = true <-> ~ NoDup (getHandValues s).
Proof.
  unfold hasAPair. rewrite <- set_size_NoDup.
  destruct (Nat.eqb_spec (length (getHandValues s)) (set_size (getHandValues s))); simpl; naive_solver.
Qed.

(** C7. [isAFlush] holds exactly when all tokens carry the same suit
    symbol (the hand always has at least one token). *)
Theorem isAFlush_spec s : isAFlush s = true <-> exists u, Forall (eq u) (getHandSuits s).
Proof.
  pose proof (getHandSuits_nonempty s) as Hne.
  unfold isAFlush. destruct (Nat.eqb_spec (set_size (getHandSuits s)) 1) as [H|H].
  - apply set_size_one in H as (u & _ & Hu). naive_solver.
  - split; [done|]. intros [u Hu]. exfalso. apply H, set_size_one. eauto.
Qed.

(** ** getPairSize *)

(** One turn of the [for-in] loop over a tally of [ks], on integers. *)
Definition pair_step (ks : list string) (acc : Z) (k : string) : Z :=
  let c := Z.of_nat (occ k ks) in
  if (1 <? c)%Z then (if (c =? 4)%Z then 6 else acc + c) else acc.

Lemma count_values_tally hv : count_values hv = tally (to_key <$> hv).
Proof. unfold count_values, tally. by rewrite foldl_fmap. Qed.

Lemma pair_size_loop_tally ks keys acc :
  Forall (fun k => k ∈ ks) keys ->
  pair_size_loop keys (tally ks) (Num acc) = Num (foldl (pair_step ks) acc keys).
Proof.
  intros Hk. revert acc. induction Hk as [|k keys Hk Hks IH]; intros acc; [done|].
  cbn [pair_size_loop foldl]. apply occ_pos in Hk.
  rewrite obj_get_tally, decide_False by lia. unfold pair_step.
  rewrite num_strict_eqb_num. cbn [num_ltb num_add].
  destruct (Z.ltb_spec 1 (Z.of_nat (occ k ks))); [|apply IH].
  destruct (Z.eqb_spec (Z.of_nat (occ k ks)) 4) as [H4|H4].
  - rewrite bool_decide_true by (by rewrite H4). apply IH.
  - rewrite bool_decide_false by congruence. apply IH.
Qed.

(** Without a value counted four times the loop only adds. *)
Lemma foldl_pair_step_add ks keys acc :
  Forall (fun k => occ k ks <> 4) keys ->
  foldl (pair_step ks) acc keys =
  Z.add acc (Z.of_nat (sum_list_with (fun k => if decide (1 < occ k ks) then occ k ks else 0) keys)).
Proof.
  intros Hk. revert acc. induction Hk as [|k keys Hk Hks IH]; intros acc; simpl; [lia|].
  rewrite IH. unfold pair_step.
  destruct (Z.ltb_spec 1 (Z.of_nat (occ k ks))), (Z.eqb_spec (Z.of_nat (occ k ks)) 4);
    case_decide; lia.
Qed.

(** Values occurring at most once leave the loop's accumulator alone. *)
Lemma foldl_pair_step_single ks keys acc :
  Forall (fun k => occ k ks <= 1) keys -> foldl (pair_step ks) acc keys = acc.
Proof.
  intros Hk. revert acc. induction Hk as [|k keys Hk Hks IH]; intros acc; simpl; [done|].
  rewrite <- (IH acc) at 2. f_equal. unfold pair_step. destruct (Z.ltb_spec 1 (Z.of_nat (occ k ks))); lia.
Qed.

Section WithForInOrder.
Context (enum : jsobj -> list string) `{!ForInOrder enum}.

Lemma enum_tally_elem ks : Forall (fun k => k ∈ ks) (enum (tally ks)).
Proof.
  apply Forall_forall. intros k Hk.
  rewrite (for_in_order_perm (enum:=enum)), obj_keys_tally, elem_of_set_go in Hk. set_solver.
Qed.

Lemma enum_tally_NoDup ks : NoDup (enum (tally ks)).
Proof. rewrite (for_in_order_perm (enum:=enum)), obj_keys_tally. apply NoDup_set_go. constructor. Qed.

Lemma getPairSize_with_fold s :
  let ks : list string := to_key <$> getHandValues s in
  getPairSize_with enum s = Num (foldl (pair_step ks) 0%Z (enum (tally ks))).
Proof.
  unfold getPairSize_with. rewrite count_values_tally. apply pair_size_loop_tally, enum_tally_elem.
Qed.

(** Summed over the distinct values, repeated counts are the number of
    cards whose value repeats. *)
Lemma enum_pair_sum_tally ks :
  sum_list_with (fun k => if decide (1 < occ k ks) then occ k ks else 0) (enum (tally ks)) =
  length (filter (fun k => 1 < occ k ks) ks).
Proof.
  rewrite (for_in_order_perm (enum:=enum)), obj_keys_tally. apply sum_occ_filter.
  - apply NoDup_set_go. constructor.
  - intros x Hx. apply elem_of_set_go. by right.
Qed.

(** The closed form of [getPairSize] on short hands. *)
Lemma getPairSize_with_small_eq s :
  length (split_space s) <= 5 ->
  let ks : list string := to_key <$> getHandValues s in
  getPairSize_with enum s =
  Num (if bool_decide (Exists (fun k => occ k ks = 4) ks) then 6
       else Z.of_nat (length (filter (fun k => 1 < occ k ks) ks))).
Proof.
  intros Hlen ks. rewrite getPairSize_with_fold. fold ks.
  assert (Hks : length ks <= 5) by (unfold ks, getHandValues; by rewrite !length_fmap).
  pose proof (enum_tally_elem ks) as Hel. pose proof (enum_tally_NoDup ks) as Hnd.
  case_bool_decide as H4.
  - apply Exists_exists in H4 as (k0 & Hk0 & Hocc).
    assert (Hin : k0 ∈ enum (tally ks)).
    { rewrite (for_in_order_perm (enum:=enum)), obj_keys_tally, elem_of_set_go. by right. }
    apply list_elem_of_split in Hin as (l1 & l2 & Hsplit). rewrite Hsplit in Hnd, Hel |- *.
    apply NoDup_app in Hnd as (_ & Hdis & Hnd2). apply NoDup_cons in Hnd2 as [Hk0l2 _].
    assert (Hsingle : forall k, k <> k0 -> occ k ks <= 1) by (intros k Hk; pose proof (occ_two k0 k ks ltac:(congruence)); lia).
    rewrite foldl_app, (foldl_pair_step_single ks l1).
    2: { apply Forall_forall. intros k Hk. apply Hsingle. intros ->. apply (Hdis k0 Hk). by left. }
    simpl. rewrite foldl_pair_step_single.
    + unfold pair_step. rewrite Hocc. done.
    + apply Forall_forall. intros k Hk. apply Hsingle. by intros ->.
  - rewrite foldl_pair_step_add, enum_pair_sum_tally; [f_equal; lia|].
    apply Forall_forall. intros k Hk Hk4. apply H4, Exists_exists. exists k. split; [|done].
    apply Forall_forall with (x := k) in Hel; [done | done].
Qed.

End WithForInOrder.

(** The lemmas for the ES2020 order. *)
Lemma for_in_tally_elem ks : Forall (fun k => k ∈ ks) (for_in_keys (tally ks)).
Proof. apply (enum_tally_elem for_in_keys). Qed.

Lemma for_in_tally_NoDup ks : NoDup (for_in_keys (tally ks)).
Proof. apply (enum_tally_NoDup for_in_keys). Qed.

Lemma getPairSize_fold s :
  let ks : list string := to_key <$> getHandValues s in
  getPairSize s = Num (foldl (pair_step ks) 0%Z (for_in_keys (tally ks))).
Proof. apply (getPairSize_with_fold for_in_keys). Qed.

Lemma pair_sum_tally ks :
  sum_list_with (fun k => if decide (1 < occ k ks) then occ k ks else 0) (for_in_keys (tally ks)) =
  length (filter (fun k => 1 < occ k ks) ks).
Proof. apply (enum_pair_sum_tally for_in_keys). Qed.

(** The closed form of [getPairSize] on short hands. *)
Lemma getPairSize_small_eq s :
  length (split_space s) <= 5 ->
  let ks : list string := to_key <$> getHandValues s in
  getPairSize s =
  Num (if bool_decide (Exists (fun k => occ k ks = 4) ks) then 6
       else Z.of_nat (length (filter (fun k => 1 < occ k ks) ks))).
Proof. apply (getPairSize_with_small_eq for_in_keys). Qed.

(** C8. On a hand of at most five tokens [getPairSize] is 6 when some
    value occurs four times and otherwise the number of cards whose value
    occurs more than once: 0, 2, 3, 4 or 5 (a five-of-a-kind, which
    [getPairSize] does not reject, gives 5). *)
Theorem getPairSize_small s :
  length (split_space s) <= 5 ->
  let ks : list string := to_key <$> getHandValues s in
  getPairSize s =
  Num (if bool_decide (Exists (fun k => occ k ks = 4) ks) then 6
       else Z.of_nat (length (filter (fun k => 1 < occ k ks) ks))).
Proof. apply getPairSize_small_eq. Qed.

Lemma getPairSize_small_witness :
  length (split_space "2H 2H 2H 3H 3H") <= 5 /\ getPairSize "2H 2H 2H 3H 3H" = Num 5.
Proof. split; [simpl; lia | apply (getPairSize_small "2H 2H 2H 3H 3H"); simpl; lia]. Defined.

(** ** isAStraight *)

(** The reference check the loop performs: each element is one less
    than the next. *)
Fixpoint adjacent_ok (l : list number) : bool :=
  match l with
  | x :: ((y :: _) as r) => num_strict_eqb (num_sub x y) (Num (-1)) && adjacent_ok r
  | _ => true
  end.

(** [run lo n] is [lo, lo + 1, ..., lo + n - 1]. *)
Fixpoint run (lo : Z) (n : nat) : list Z :=
  match n with
  | O => []
  | S n' => lo :: run (lo + 1) n'
  end.

Lemma straight_loop_drop l i fuel :
  length l <= i + fuel -> straight_loop l i fuel = adjacent_ok (drop i l).
Proof.
  revert i; induction fuel as [|fuel IH]; intros i Hf; cbn [straight_loop].
  - by rewrite drop_ge by lia.
  - destruct (Z.ltb_spec (Z.of_nat i) (Z.of_nat (length l) - 1)) as [Hi|Hi].
    + destruct (lookup_lt_is_Some_2 l i) as [x Hx]; [lia|].
      destruct (lookup_lt_is_Some_2 l (S i)) as [y Hy]; [lia|].
      rewrite IH by lia. unfold elem_at. rewrite Hx, Hy. cbn [default].
      rewrite (drop_S l x i Hx), (drop_S l y (S i) Hy). cbn [adjacent_ok].
      by destruct (num_strict_eqb _ _).
    + destruct (drop i l) as [|x [|y r]] eqn:E; [done|done|].
      apply (f_equal length) in E. rewrite length_drop in E. simpl in E. lia.
Qed.

(** C9. The index loop of [isAStraight] terminates within [length l]
    iterations: with any fuel at least the array's length it computes
    the adjacent-pair check [adjacent_ok]. *)
Theorem straight_loop_fuel l fuel :
  length l <= fuel -> straight_loop l 0 fuel = adjacent_ok l.
Proof. intros H. rewrite straight_loop_drop by lia. by rewrite drop_0. Qed.

Lemma straight_loop_fuel_witness :
  length [Num 2; Num 3; Num 5] <= 7 /\ straight_loop [Num 2; Num 3; Num 5] 0 7 = false.
Proof. split; [simpl; lia | rewrite (straight_loop_fuel _ 7); [reflexivity | simpl; lia]]. Defined.

Lemma num_sub_minus_one x y :
  num_strict_eqb (num_sub x y) (Num (-1)) = true -> exists a, x = Num a /\ y = Num (a + 1).
Proof.
  destruct x as [a| | |], y as [b| | |]; simpl; try discriminate.
  intros H%Z.eqb_eq. exists a. split; [done | f_equal; lia].
Qed.

Lemma length_run lo n : length (run lo n) = n.
Proof. revert lo; induction n; intros lo; simpl; auto. Qed.

Lemma elem_of_run z lo n : z ∈ run lo n <-> (lo <= z < lo + Z.of_nat n)%Z.
Proof.
  revert lo; induction n as [|n IH]; intros lo; simpl; rewrite ?elem_of_nil, ?elem_of_cons, ?IH; lia.
Qed.

Lemma run_sorted lo n : Sorted Z.le (run lo n).
Proof.
  revert lo; induction n as [|n IH]; intros lo; simpl; constructor; [apply IH|].
  destruct n; simpl; constructor. lia.
Qed.

Lemma adjacent_ok_cons2 x y r :
  adjacent_ok (x :: y :: r) = num_strict_eqb (num_sub x y) (Num (-1)) && adjacent_ok (y :: r).
Proof. reflexivity. Qed.

Lemma adjacent_ok_run lo n : adjacent_ok (Num <$> run lo n) = true.
Proof.
  revert lo; induction n as [|[|n] IH]; intros lo; [done|done|].
  specialize (IH (lo + 1)%Z). cbn [run fmap list_fmap] in *.
  rewrite adjacent_ok_cons2, IH. cbn [num_sub num_strict_eqb]. apply andb_true_iff. split; [|done].
  apply Z.eqb_eq. lia.
Qed.

Lemma adjacent_ok_is_run l :
  2 <= length l -> adjacent_ok l = true -> exists lo, l = Num <$> run lo (length l).
Proof.
  induction l as [|x l IH]; [simpl; lia|]. destruct l as [|y r]; [simpl; lia|].
  intros _ H. cbn [adjacent_ok] in H. apply andb_true_iff in H as [Hxy Hr].
  apply num_sub_minus_one in Hxy as (a & -> & ->). exists a.
  destruct r as [|z r]; [done|].
  destruct IH as [b Hb]; [simpl; lia | done|].
  cbn [run length fmap list_fmap] in Hb |- *. injection Hb as Hab Hz Hr2. subst. by rewrite <- Hr2.
Qed.

(** What [isAStraight] computes: the adjacent-pair check on the sorted
    numeric values. *)
Lemma isAStraight_with_sorted sort s :
  isAStraight_with sort s = adjacent_ok (sort num_sub (getHandValuesNumericValue <$> getHandValues s)).
Proof. unfold isAStraight_with. by rewrite straight_loop_drop, drop_0 by lia. Qed.

Lemma isAStraight_sorted s :
  isAStraight s = adjacent_ok (js_sort num_sub (getHandValuesNumericValue <$> getHandValues s)).
Proof. apply isAStraight_with_sorted. Qed.

Lemma length_numeric s :
  length (getHandValuesNumericValue <$> getHandValues s) = length (split_space s).
Proof. unfold getHandValues. by rewrite !length_fmap. Qed.

(** [isAStraight] as a permutation of a run. *)
Lemma isAStraight_run_iff s :
  2 <= length (split_space s) ->
  isAStraight s = true <->
  exists lo, getHandValuesNumericValue <$> getHandValues s ≡ₚ Num <$> run lo (length (split_space s)).
Proof.
  intros H2. rewrite isAStraight_sorted, <- length_numeric.
  set (nums := getHandValuesNumericValue <$> getHandValues s). fold nums in H2.
  rewrite <- length_numeric in H2. fold nums in H2. split.
  - intros Hadj. destruct (adjacent_ok_is_run (js_sort num_sub nums)) as [lo Hlo];
      [by rewrite js_sort_perm | done |].
    exists lo. rewrite <- (js_sort_perm num_sub nums), Hlo at 1. by rewrite js_sort_perm.
  - intros [lo Hp]. destruct (Permutation_fmap_inv Num nums _ Hp) as (zs & Hzs & Hp').
    rewrite Hzs, (js_sort_sub_unique zs (run lo (length nums))); [apply adjacent_ok_run | apply run_sorted | done].
Qed.

(** C10. On a hand of at least two tokens, [isAStraight] holds exactly
    when the numeric values of the tokens are, in some order, [n]
    consecutive integers ([n] the number of tokens); a token whose value
    has no number (NaN) rules a straight out.  The ace counts 14 and
    never 1, so on fewer than 13 tokens a hand holding both an ace and a
    two is never a straight: the wheel A-2-3-4-5, a straight for spec
    4.3 and for the test at src/index.spec.ts:190, is not one. *)
Theorem isAStraight_spec s :
  2 <= length (split_space s) ->
  (isAStraight s = true <->
   exists lo, getHandValuesNumericValue <$> getHandValues s ≡ₚ Num <$> run lo (length (split_space s))) /\
  (length (split_space s) <= 12 ->
   Num 14 ∈ getHandValuesNumericValue <$> getHandValues s ->
   Num 2 ∈ getHandValuesNumericValue <$> getHandValues s -> isAStraight s = false).
Proof.
  intros H2. split; [by apply isAStraight_run_iff|]. intros H12 H14 H2'.
  destruct (isAStraight s) eqn:E; [exfalso|done].
  apply isAStraight_run_iff in E as [lo Hlo]; [|done]. rewrite Hlo in H14, H2'.
  apply list_elem_of_fmap in H14 as (a & [= <-] & Ha), H2' as (b & [= <-] & Hb).
  rewrite elem_of_run in Ha, Hb. lia.
Qed.

Lemma isAStraight_spec_witness :
  2 <= length (split_space "AH 2H 3C 4S 5D") /\ length (split_space "AH 2H 3C 4S 5D") <= 12 /\
  Num 14 ∈ getHandValuesNumericValue <$> getHandValues "AH 2H 3C 4S 5D" /\
  Num 2 ∈ getHandValuesNumericValue <$> getHandValues "AH 2H 3C 4S 5D" /\
  isAStraight "AH 2H 3C 4S 5D" = false.
Proof.
  assert (H2 : 2 <= length (split_space "AH 2H 3C 4S 5D")) by (simpl; lia).
  assert (H12 : length (split_space "AH 2H 3C 4S 5D") <= 12) by (simpl; lia).
  assert (H14 : Num 14 ∈ getHandValuesNumericValue <$> getHandValues "AH 2H 3C 4S 5D") by (vm_compute; left).
  assert (H2' : Num 2 ∈ getHandValuesNumericValue <$> getHandValues "AH 2H 3C 4S 5D") by (vm_compute; right; left).
  do 4 (split; [assumption|]). exact (proj2 (isAStraight_spec _ H2) H12 H14 H2').
Defined.

(** C11. The ace-low straight A-2-3-4-5, which the spec and the suite
    count as a straight, is rejected: its sorted values are
    [2, 3, 4, 5, 14]. *)
Theorem isAStraight_ace_low s :
  getHandValuesNumericValue <$> getHandValues s ≡ₚ Num <$> [14; 2; 3; 4; 5]%Z ->
  isAStraight s = false.
Proof.
  intros Hp. rewrite isAStraight_sorted.
  destruct (Permutation_fmap_inv Num _ _ Hp) as (zs & -> & Hzs).
  rewrite (js_sort_sub_unique zs [2; 3; 4; 5; 14]%Z); [reflexivity| |].
  - repeat constructor; lia.
  - rewrite Hzs. symmetry. exact (Permutation_app_comm [14%Z] [2; 3; 4; 5]%Z).
Qed.

Lemma isAStraight_ace_low_witness :
  getHandValuesNumericValue <$> getHandValues "AH 2H 3C 4S 5D" ≡ₚ Num <$> [14; 2; 3; 4; 5]%Z /\
  isAStraight "AH 2H 3C 4S 5D" = false.
Proof.
  assert (Hp : getHandValuesNumericValue <$> getHandValues "AH 2H 3C 4S 5D" ≡ₚ Num <$> [14; 2; 3; 4; 5]%Z)
    by reflexivity.
  split; [exact Hp | exact (isAStraight_ace_low _ Hp)].
Defined.

(** C12. A string without a space is a single token and passes
    [isAStraight] whatever it holds ("X" included): the loop has no pair
    to compare. *)
Theorem isAStraight_single_token t : has_space t = false -> isAStraight t = true.
Proof.
  intros Ht. rewrite isAStraight_sorted.
  assert (Hsplit : split_space t = [t]).
  { rewrite <- (string_app_nil_r t) at 1. unfold split_space. rewrite split_go_app by done.
    by rewrite string_app_nil_l. }
  unfold getHandValues. rewrite Hsplit. reflexivity.
Qed.

Lemma isAStraight_single_token_witness : has_space "X" = false /\ isAStraight "X" = true.
Proof. split; [reflexivity | apply isAStraight_single_token; reflexivity]. Defined.

(** ** getHighCard and getLowCard on a valid hand *)

Section ValidHand.
Context (s : string) (Hvalid : isValidHand s = Normal true).

(** C13. On a valid hand [getHighCard] and [getLowCard] return the
    largest and the smallest of the five numeric values, which lie
    between 2 and 14 (the ace counts 14 here, never 1). *)
Theorem high_low_card_bounds :
  exists zs lo hi,
    getHandValuesNumericValue <$> getHandValues s = Num <$> zs /\
    getLowCard s = Num lo /\ getHighCard s = Num hi /\
    lo ∈ zs /\ hi ∈ zs /\ Forall (fun z => (lo <= z <= hi)%Z) zs /\
    (2 <= lo)%Z /\ (hi <= 14)%Z.
Proof.
  destruct (valid_numeric s Hvalid) as ([|z zs] & Hnums & Hlen & Hb); [done|].
  unfold getLowCard, getHighCard. rewrite Hnums, math_min_num, math_max_num.
  destruct (foldl_min_spec z zs) as [Hlo Hlos], (foldl_max_spec z zs) as [Hhi Hhis].
  exists (z :: zs), (foldl Z.min z zs), (foldl Z.max z zs).
  rewrite Forall_forall in Hb, Hlos, Hhis.
  repeat split; try done.
  - apply Forall_forall. intros y Hy. split; [apply Hlos | apply Hhis]; done.
  - by apply Hb.
  - by apply Hb.
Qed.
End ValidHand.

Lemma high_low_card_bounds_witness :
  isValidHand "2H 5H 6C 9S AD" = Normal true /\
  exists zs lo hi,
    getHandValuesNumericValue <$> getHandValues "2H 5H 6C 9S AD" = Num <$> zs /\
    getLowCard "2H 5H 6C 9S AD" = Num lo /\ getHighCard "2H 5H 6C 9S AD" = Num hi /\
    lo ∈ zs /\ hi ∈ zs /\ Forall (fun z => (lo <= z <= hi)%Z) zs /\
    (2 <= lo)%Z /\ (hi <= 14)%Z.
Proof. split; [reflexivity | apply high_low_card_bounds; reflexivity]. Defined.

(** ** getPairSize beyond five tokens *)

(** C14. On a hand of any length in which no value occurs exactly four
    times, [getPairSize] counts the cards whose value occurs more than
    once. *)
Theorem getPairSize_no_four s :
  let ks : list string := to_key <$> getHandValues s in
  Forall (fun k => occ k ks <> 4) ks ->
  getPairSize s = Num (Z.of_nat (length (filter (fun k => 1 < occ k ks) ks))).
Proof.
  intros ks H4. rewrite getPairSize_fold. fold ks.
  rewrite foldl_pair_step_add, pair_sum_tally; [f_equal; lia|].
  apply Forall_forall. intros k Hk. pose proof (for_in_tally_elem ks) as Hel.
  rewrite Forall_forall in Hel, H4. by apply H4, Hel.
Qed.

Lemma getPairSize_no_four_witness :
  Forall (fun k => occ k (to_key <$> getHandValues "2H 2H 3H 3H 3H 5H") <> 4)
         (to_key <$> getHandValues "2H 2H 3H 3H 3H 5H") /\
  getPairSize "2H 2H 3H 3H 3H 5H" = Num 5.
Proof.
  assert (H : Forall (fun k => occ k (to_key <$> getHandValues "2H 2H 3H 3H 3H 5H") <> 4)
                     (to_key <$> getHandValues "2H 2H 3H 3H 3H 5H"))
    by (repeat constructor; vm_compute; discriminate).
  split; [exact H | exact (getPairSize_no_four _ H)].
Defined.

(** C15. On a hand of any length and for every engine whose for-in loop
    visits each key once: when [k] is the last key with a count of four
    the loop visits, [getPairSize] is 6 plus the counts above one of the
    keys it visits after [k].  The assignment [pairSize = 6] discards
    what was summed before, so the result depends on the order of the
    keys, and in the ES2020 order on the order of the cards (index.ts
    79-88). *)
Theorem getPairSize_last_four enum `{!ForInOrder enum} s pre k post :
  let ks : list string := to_key <$> getHandValues s in
  enum (count_values (getHandValues s)) = pre ++ k :: post ->
  occ k ks = 4 -> Forall (fun k' => occ k' ks <> 4) post ->
  getPairSize_with enum s =
  Num (6 + Z.of_nat (sum_list_with (fun k' => if decide (1 < occ k' ks) then occ k' ks else 0) post)).
Proof.
  intros ks Hkeys H4 Hpost. rewrite getPairSize_with_fold. fold ks.
  rewrite count_values_tally in Hkeys. fold ks in Hkeys.
  rewrite Hkeys, foldl_app. cbn [foldl]. unfold pair_step at 2. rewrite H4.
  cbn -[occ]. rewrite foldl_pair_step_add; [reflexivity | exact Hpost]. apply _.
Qed.

Lemma getPairSize_last_four_witness :
  obj_keys (count_values (getHandValues "4H 4D 4S 4C 2H 2D")) = [] ++ "4" :: ["2"] /\
  occ "4" (to_key <$> getHandValues "4H 4D 4S 4C 2H 2D") = 4 /\
  Forall (fun k' => occ k' (to_key <$> getHandValues "4H 4D 4S 4C 2H 2D") <> 4) ["2"] /\
  getPairSize_with obj_keys "4H 4D 4S 4C 2H 2D" = Num 8.
Proof.
  assert (Hk : obj_keys (count_values (getHandValues "4H 4D 4S 4C 2H 2D")) = [] ++ "4" :: ["2"])
    by reflexivity.
  assert (H4 : occ "4" (to_key <$> getHandValues "4H 4D 4S 4C 2H 2D") = 4) by reflexivity.
  assert (Hp : Forall (fun k' => occ k' (to_key <$> getHandValues "4H 4D 4S 4C 2H 2D") <> 4) ["2"])
    by (repeat constructor; vm_compute; discriminate).
  split; [exact Hk|]. split; [exact H4|]. split; [exact Hp|].
  exact (getPairSize_last_four obj_keys _ _ _ _ Hk H4 Hp).
Defined.

(** ** Unreadable values: NaN *)

(** A first character [getHandValuesNumericValue] turns into an integer:
    a decimal digit ("0" and "1" included) or one of "T", "J", "Q", "K",
    "A". *)
Definition readable_value (c : ascii) : bool :=
  bool_decide (48 <= nat_of_ascii c <= 57) || bool_decide (String c EmptyString ∈ ["T"; "J"; "Q"; "K"; "A"]).

Definition readable_token (t : string) : bool :=
  match t with
  | String c _ => readable_value c
  | EmptyString => false
  end.

(** Checked on all 256 characters. *)
Lemma numeric_char c :
  match getHandValuesNumericValue (Some (String c EmptyString)) with
  | Num _ => readable_value c = true
  | NaN => readable_value c = false
  | _ => False
  end.
Proof. destruct c as [[] [] [] [] [] [] [] []]; vm_compute; reflexivity. Qed.

Lemma numeric_token t :
  match getHandValuesNumericValue (char_at t 0) with
  | Num _ => readable_token t = true
  | NaN => readable_token t = false
  | _ => False
  end.
Proof. destruct t as [|c t]; [reflexivity | exact (numeric_char c)]. Qed.

Lemma numeric_tokens toks :
  (exists zs, getHandValuesNumericValue <$> ((fun t => char_at t 0) <$> toks) = Num <$> zs /\
              length zs = length toks /\ Forall (fun t => readable_token t = true) toks) \/
  (NaN ∈ getHandValuesNumericValue <$> ((fun t => char_at t 0) <$> toks) /\
   exists t, t ∈ toks /\ readable_token t = false).
Proof.
  induction toks as [|t toks IH]; [left; by exists []|].
  pose proof (numeric_token t) as Ht. rewrite !fmap_cons.
  destruct (getHandValuesNumericValue (char_at t 0)) as [z| | |]; try done.
  - destruct IH as [(zs & Hzs & Hl & Hr)|(Hn & t' & Ht' & Hr)].
    + left. exists (z :: zs). rewrite Hzs. simpl. auto.
    + right. split; [by right|]. exists t'. split; [by right | done].
  - right. split; [by left|]. exists t. split; [by left | done].
Qed.

(** C27. [getHighCard] and [getLowCard], which the spec types as
    integers, are NaN exactly when some token's first character is
    missing or is not a digit or one of T, J, Q, K, A; [Math.max] and
    [Math.min] propagate the NaN of [parseInt]. *)
Theorem high_low_card_nan s :
  (getHighCard s = NaN <-> exists t, t ∈ split_space s /\ readable_token t = false) /\
  (getLowCard s = NaN <-> exists t, t ∈ split_space s /\ readable_token t = false).
Proof.
  unfold getHighCard, getLowCard, getHandValues.
  destruct (numeric_tokens (split_space s)) as [(zs & Hzs & Hl & Hr)|(Hn & Hex)].
  - rewrite Hzs. destruct zs as [|z zs].
    { exfalso. apply (split_space_nonempty s), nil_length_inv. by rewrite <- Hl. }
    rewrite math_max_num, math_min_num, Forall_forall in *.
    split; split; try discriminate; intros (t & Ht & Hf); apply Hr in Ht; congruence.
  - rewrite math_max_nan, math_min_nan by done. tauto.
Qed.

Lemma high_low_card_nan_witness :
  getHighCard "2H XD 5S" = NaN /\ getLowCard "2H XD 5S" = NaN.
Proof.
  split; apply (high_low_card_nan "2H XD 5S"); exists "XD"; split; [right; left | reflexivity | right; left | reflexivity].
Defined.

(** ** getHighCard and getLowCard on a straight *)



(** ** getHighCard and getLowCard on every input *)

Lemma char_at_symbol t i : char_at t i = None \/ exists c, char_at t i = Some (String c EmptyString).
Proof. unfold char_at. destruct (String.get i t); simpl; eauto. Qed.

(** What a card number can be: NaN or an integer from 0 to 14. *)
Definition card_number_ok (v : number) : Prop := v = NaN \/ exists z, v = Num z /\ (0 <= z <= 14)%Z.

(** Checked on all 256 characters. *)
Lemma numeric_char_range c :
  match getHandValuesNumericValue (Some (String c EmptyString)) with
  | Num z => (0 <=? z)%Z && (z <=? 14)%Z
  | NaN => true
  | _ => false
  end = true.
Proof. destruct c as [[] [] [] [] [] [] [] []]; vm_compute; reflexivity. Qed.

Lemma numeric_value_range t : card_number_ok (getHandValuesNumericValue (char_at t 0)).
Proof.
  destruct (char_at_symbol t 0) as [->|[c ->]]; [by left|].
  pose proof (numeric_char_range c) as H.
  destruct (getHandValuesNumericValue _) as [z| | |]; try discriminate; [right|by left].
  apply andb_true_iff in H as [H1%Z.leb_le H2%Z.leb_le]. by exists z.
Qed.

Lemma Forall_card_nums l :
  Forall card_number_ok l -> NaN ∉ l -> exists zs, l = Num <$> zs /\ Forall (fun z => (0 <= z <= 14)%Z) zs.
Proof.
  induction 1 as [|v l [->|(z & -> & Hz)] _ IH]; intros Hn; [by exists [] | set_solver |].
  destruct IH as (zs & -> & Hzs); [set_solver|]. exists (z :: zs). split; [done | by constructor].
Qed.

(** [Math.max] and [Math.min] keep a nonempty list of card numbers a card
    number: NaN propagates, and otherwise the result is one of the
    integers. *)
Lemma math_extreme_ok (f : list number -> number) :
  (forall l, NaN ∈ l -> f l = NaN) ->
  (forall z zs, exists w, f (Num <$> z :: zs) = Num w /\ w ∈ z :: zs) ->
  forall l, l <> [] -> Forall card_number_ok l -> card_number_ok (f l).
Proof.
  intros Hnan Hnum l Hl Hok. destruct (decide (NaN ∈ l)) as [Hn|Hn]; [left; by apply Hnan|].
  destruct (Forall_card_nums l Hok Hn) as ([|z zs] & -> & Hzs); [done|].
  destruct (Hnum z zs) as (w & -> & Hw). right. exists w. split; [done|].
  rewrite Forall_forall in Hzs. by apply Hzs.
Qed.

(** C17. Bounds on every input, valid or not: [getHighCard] and
    [getLowCard] are never an infinity (the hand has at least one token)
    and never outside [0, 14]; they are NaN or an integer from 0 to 14.
    The values 0 and 1, from the digits "0" and "1" that [parseInt]
    reads, lie outside the ranks 2 to 14 of the spec. *)
Theorem high_low_card_range s : card_number_ok (getHighCard s) /\ card_number_ok (getLowCard s).
Proof.
  assert (Hl : getHandValuesNumericValue <$> getHandValues s <> []).
  { unfold getHandValues. intros H%fmap_nil_inv%fmap_nil_inv. by apply (split_space_nonempty s). }
  assert (Hok : Forall card_number_ok (getHandValuesNumericValue <$> getHandValues s)).
  { unfold getHandValues. apply Forall_fmap, Forall_fmap, Forall_forall. intros t _. apply numeric_value_range. }
  split; apply math_extreme_ok; try done; [apply math_max_nan | | apply math_min_nan |]; intros z zs.
  - exists (foldl Z.max z zs). split; [apply math_max_num | apply foldl_max_spec].
  - exists (foldl Z.min z zs). split; [apply math_min_num | apply foldl_min_spec].
Qed.

(** ** hasAPair and getPairSize agree *)

Lemma hasAPair_NoDup s : hasAPair s = negb (bool_decide (NoDup (getHandValues s))).
Proof.
  unfold hasAPair. destruct (Nat.eqb_spec (length (getHandValues s)) (set_size (getHandValues s))) as [E|E];
    case_bool_decide as H; rewrite <- set_size_NoDup in H; simpl; congruence.
Qed.

Lemma foldl_pair_step_pos ks keys acc : (0 < acc)%Z -> (0 < foldl (pair_step ks) acc keys)%Z.
Proof.
  revert acc; induction keys as [|k keys IH]; intros acc Hacc; simpl; [done|].
  apply IH. unfold pair_step; cbv zeta.
  destruct (Z.ltb_spec 1 (Z.of_nat (occ k ks))), (Z.eqb_spec (Z.of_nat (occ k ks)) 4); lia.
Qed.

(** The loop of [getPairSize] ends at 0 exactly when no key it visits
    was counted twice. *)
Lemma foldl_pair_step_zero ks keys :
  foldl (pair_step ks) 0%Z keys = 0%Z <-> Forall (fun k => occ k ks <= 1) keys.
Proof.
  split; [|apply foldl_pair_step_single].
  induction keys as [|k keys IH]; intros H; [constructor|]. simpl in H.
  unfold pair_step at 2 in H; cbv zeta in H.
  destruct (Z.ltb_spec 1 (Z.of_nat (occ k ks))) as [Hlt|Hle].
  - exfalso. refine (Z.lt_irrefl 0 _). rewrite <- H at 2. apply foldl_pair_step_pos.
    destruct (Z.eqb_spec (Z.of_nat (occ k ks)) 4); lia.
  - constructor; [lia | by apply IH].
Qed.

Lemma getPairSize_zero s : getPairSize s = Num 0 <-> NoDup (to_key <$> getHandValues s).
Proof.
  rewrite getPairSize_fold. cbv zeta. set (ks := to_key <$> getHandValues s).
  rewrite occ_NoDup. split.
  - intros [= H]. apply foldl_pair_step_zero in H. intros x.
    destruct (decide (x ∈ ks)) as [Hx|Hx].
    + rewrite Forall_forall in H. apply H. rewrite for_in_keys_perm, obj_keys_tally, elem_of_set_go. by right.
    + rewrite occ_pos in Hx. lia.
  - intros Hnd. f_equal. apply foldl_pair_step_zero, Forall_forall. intros k _. apply Hnd.
Qed.

(** The keys of the values are as distinct as the values: a value is
    [undefined] or one character, never the nine-character key
    "undefined". *)
Lemma NoDup_getHandValues_key s : NoDup (to_key <$> getHandValues s) <-> NoDup (getHandValues s).
Proof.
  split; [apply NoDup_fmap_1|]. apply NoDup_fmap_2_strong.
  intros x y Hx Hy. unfold getHandValues in Hx, Hy.
  apply list_elem_of_fmap in Hx as (t & -> & _), Hy as (t' & -> & _).
  destruct (char_at_symbol t 0) as [->|[c ->]], (char_at_symbol t' 0) as [->|[c' ->]]; simpl; congruence.
Qed.

(** C28. [hasAPair] and [getPairSize] agree on every hand, of any length:
    a pair is reported exactly when the pair size is not 0. *)
Theorem hasAPair_getPairSize s : hasAPair s = true <-> getPairSize s <> Num 0.
Proof.
  rewrite hasAPair_NoDup, getPairSize_zero, NoDup_getHandValues_key, negb_true_iff, bool_decide_eq_false.
  done.
Qed.

(** ** A pair is never a straight *)

Lemma run_NoDup lo n : NoDup (run lo n).
Proof.
  revert lo; induction n as [|n IH]; intros lo; simpl; constructor; [|apply IH].
  rewrite elem_of_run. lia.
Qed.

Lemma NoDup_short {A} (l : list A) : length l <= 1 -> NoDup l.
Proof. destruct l as [|x [|y l]]; simpl; intros; [constructor | apply NoDup_singleton | lia]. Qed.

(** C29. A hand in which [hasAPair] finds two equal values is never a
    straight for [isAStraight], whatever its length: the values of a run
    are distinct. *)
Theorem pair_not_straight s : hasAPair s = true -> isAStraight s = false.
Proof.
  rewrite hasAPair_NoDup, negb_true_iff, bool_decide_eq_false. intros Hp.
  destruct (isAStraight s) eqn:E; [exfalso | done].
  destruct (decide (2 <= length (split_space s))) as [H2|H2].
  - apply isAStraight_run_iff in E as [lo Hlo]; [|done].
    apply Hp, (NoDup_fmap_1 getHandValuesNumericValue). rewrite Hlo.
    apply NoDup_fmap_2; [apply _ | apply run_NoDup].
  - apply Hp, NoDup_short. unfold getHandValues. rewrite length_fmap. lia.
Qed.

Lemma pair_not_straight_witness : hasAPair "2H 3D 4S 5C 5H" = true /\ isAStraight "2H 3D 4S 5C 5H" = false.
Proof. split; [reflexivity | apply pair_not_straight; reflexivity]. Defined.

(** ** isAStraight does not depend on the engine's sort *)

Lemma adjacent_ok_short l : length l <= 1 -> adjacent_ok l = true.
Proof. intros Hl. destruct l as [|x [|y l]]; simpl in *; [done | done | lia]. Qed.

(** An array with NaN and another element is never a run: some
    difference with NaN is NaN, not -1. *)
Lemma adjacent_ok_nan l : NaN ∈ l -> 2 <= length l -> adjacent_ok l = false.
Proof.
  induction l as [|x [|y l] IH]; simpl; intros Hn Hl; [lia | lia|].
  apply andb_false_iff. rewrite !elem_of_cons in Hn.
  destruct (decide (x = NaN)) as [->|Hx]; [left; by destruct y|].
  destruct (decide (y = NaN)) as [->|Hy]; [left; by destruct x|].
  right. destruct l as [|z l]; [set_solver|]. apply IH; [set_solver | simpl; lia].
Qed.

(** C33. The result of [isAStraight] is the same on every engine whose
    [Array.prototype.sort] keeps the promises of ECMA-262 ([ArraySort]):
    on integer values the comparator is consistent and the sorted array
    is unique, and with a NaN value (an unreadable card) every order of
    two or more values fails the adjacent check. *)
Theorem isAStraight_engine_independent sort `{!ArraySort sort} s : isAStraight_with sort s = isAStraight s.
Proof.
  rewrite isAStraight_sorted, isAStraight_with_sorted. unfold getHandValues.
  destruct (numeric_tokens (split_space s)) as [(zs & Hzs & _)|(Hn & _)].
  - rewrite Hzs. by rewrite (array_sort_sub sort).
  - set (nums := getHandValuesNumericValue <$> _) in *.
    pose proof (array_sort_Permutation num_sub nums) as P1. pose proof (js_sort_perm num_sub nums) as P2.
    destruct (decide (2 <= length nums)).
    + rewrite !adjacent_ok_nan; [done | by rewrite P2 | by rewrite P2 | by rewrite P1 | by rewrite P1].
    + rewrite !adjacent_ok_short; [done | rewrite P2; lia | rewrite P1; lia].
Qed.

Lemma isAStraight_engine_independent_witness :
  isAStraight_with merge_engine "9D TS 8H XC QH" = isAStraight "9D TS 8H XC QH".
Proof. apply (isAStraight_engine_independent merge_engine). Defined.

(** ** The range of getPairSize *)

(** C34. On a hand of at most five tokens, valid or not, [getPairSize]
    is one of 0, 2, 3, 4, 5 and 6: never 1, and never more than 6. *)
Theorem getPairSize_range s :
  length (split_space s) <= 5 -> getPairSize s ∈ [Num 0; Num 2; Num 3; Num 4; Num 5; Num 6].
Proof.
  intros H. rewrite getPairSize_small_eq by done. cbv zeta.
  set (ks := to_key <$> getHandValues s). case_bool_decide; [set_solver|].
  assert (Hle : length (filter (fun k => 1 < occ k ks) ks) <= 5).
  { etrans; [apply length_filter|]. unfold ks, getHandValues. by rewrite !length_fmap. }
  pose proof (length_filter_repeated ks) as H1.
  destruct (length (filter (fun k => 1 < occ k ks) ks)) as [|[|[|[|[|[|n]]]]]]; simpl; first [lia | set_solver].
Qed.

Lemma getPairSize_range_witness :
  length (split_space "2H 2D 2S XC") <= 5 /\ getPairSize "2H 2D 2S XC" ∈ [Num 0; Num 2; Num 3; Num 4; Num 5; Num 6].
Proof. split; [simpl; lia | apply getPairSize_range; simpl; lia]. Defined.

(** ** getPairSize and the for-in order *)

(** C39. On a hand of at most five tokens [getPairSize] gives the same
    result on every engine whose [for (let value in valueCounts)] visits
    each key once ([ForInOrder]), in the ES2020 order or any other. *)
Theorem getPairSize_order_independent enum `{!ForInOrder enum} s :
  length (split_space s) <= 5 -> getPairSize_with enum s = getPairSize s.
Proof.
  intros H. rewrite getPairSize_small_eq by done. exact (getPairSize_with_small_eq enum s H).
Qed.

Lemma getPairSize_order_independent_witness :
  length (split_space "2H 2D 5S 5C 5H") <= 5 /\
  getPairSize_with obj_keys "2H 2D 5S 5C 5H" = getPairSize "2H 2D 5S 5C 5H".
Proof. split; [simpl; lia | apply (getPairSize_order_independent obj_keys); simpl; lia]. Defined.



End Predicates.
