(* ===== verification/Suite.v ===== *)
(** The Jest suite src/index.spec.ts as data: each [test] is the value
    its [expect] receives (a call of the model, which may throw), its
    matcher ([toBe], [toStrictEqual], [toThrow]) and whether it is
    [test.skip]ped, with [run_test], which runs a test on the model by
    evaluation: passed, failed or skipped. *)

From S2P Require Import Prelude JsString JsNumber JsCollections Cards Predicates.
Import JsString JsNumber JsCollections Cards Predicates.

Module Suite.

(** The values the tests compare. *)
Inductive jsval : Type :=
| VBool (b : bool)
| VNum (n : number)
| VStrs (l : list jsstr)
| VUndef.

#[export] Instance jsval_eq_dec : EqDecision jsval.
Proof. solve_decision. Defined.

Inductive matcher : Type :=
| ToBe (v : jsval)
| ToStrictEqual (v : jsval)
| ToThrow.

Record test : Type := mk_test {
  test_name : string;
  test_skipped : bool;
  test_actual : completion jsval;
  test_expected : matcher
}.

Inductive outcome : Type := Passed | Failed | Skipped.

#[export] Instance outcome_eq_dec : EqDecision outcome.
Proof. solve_decision. Defined.

(** [toBe] is Object.is and [toStrictEqual] deep equality; on these
    values both are structural equality (Object.is(NaN, NaN) holds).  A
    call that throws fails every matcher but [toThrow]. *)
Definition passes (t : test) : bool :=
  match test_expected t, test_actual t with
  | ToBe v, Normal w | ToStrictEqual v, Normal w => bool_decide (v = w)
  | ToThrow, Throw _ => true
  | _, _ => false
  end.

Definition run_test (t : test) : outcome :=
  if test_skipped t then Skipped else if passes t then Passed else Failed.

Definition t_bool (name : string) (c : completion bool) (m : matcher) : test :=
  mk_test name false (completion_map VBool c) m.
Definition t_val (name : string) (v : jsval) (m : matcher) : test :=
  mk_test name false (Normal v) m.
Definition strs (l : list string) : jsval := VStrs (Some <$> l).

(** index.spec.ts 19-43 *)
Definition isValidHand_tests : list test :=
  [t_bool "Valid hand '2H 3H 4H 5H 6H' should return true" (isValidHand "2H 3H 4H 5H 6H") (ToBe (VBool true));
   t_bool "Valid hand 'AH AC 5H 6H 7S' should return true" (isValidHand "AH AC 5H 6H 7S") (ToBe (VBool true));
   t_bool "Invalid hand '6H 7S' should throw an error" (isValidHand "6H 7S") ToThrow;
   t_bool "Invalid hand 'aH AC 5H 6H 7S' should throw an error" (isValidHand "aH AC 5H 6H 7S") ToThrow;
   t_bool "Invalid hand 'AH 1C 5H 6H 7S' should throw an error" (isValidHand "AH 1C 5H 6H 7S") ToThrow;
   t_bool "Invalid hand 'AH AC AH AH AS' should throw an error" (isValidHand "AH AC AH AH AS") ToThrow].

(** index.spec.ts 45-57 *)
Definition hasAPair_tests : list test :=
  [t_val "Hand '2H 3H 4H 5H 6H' with no pair should return false" (VBool (hasAPair "2H 3H 4H 5H 6H")) (ToBe (VBool false));
   t_val "Hand '2H 2H 4H 5H 6H' with one pair should return true" (VBool (hasAPair "2H 2H 4H 5H 6H")) (ToBe (VBool true));
   t_val "Hand '2H 2H 2H 5H 6H' with three of a kind should return true" (VBool (hasAPair "2H 2H 2H 5H 6H")) (ToBe (VBool true))].

(** index.spec.ts 59-83 *)
Definition getPairSize_tests : list test :=
  [t_val "Hand '2H 3H 4H 5H 6H' with no pair should return 0" (VNum (getPairSize "2H 3H 4H 5H 6H")) (ToBe (VNum (Num 0)));
   t_val "Hand '2H 2H 4H 5H 6H' with one pair should return 2" (VNum (getPairSize "2H 2H 4H 5H 6H")) (ToBe (VNum (Num 2)));
   t_val "Hand '2H 2H 2H 5H 6H' with three of a kind should return 3" (VNum (getPairSize "2H 2H 2H 5H 6H")) (ToBe (VNum (Num 3)));
   t_val "Hand '2H 2H 4H 4H 6H' with two pairs should return 4" (VNum (getPairSize "2H 2H 4H 4H 6H")) (ToBe (VNum (Num 4)));
   t_val "Hand '2H 2H 2H 3H 3H' with full house should return 5" (VNum (getPairSize "2H 2H 2H 3H 3H")) (ToBe (VNum (Num 5)));
   t_val "Hand '2H 2H 2H 2H 6H' with four of a kind should return 6" (VNum (getPairSize "2H 2H 2H 2H 6H")) (ToBe (VNum (Num 6)))].

(** index.spec.ts 85-105 *)
Definition getHandValues_tests : list test :=
  [t_val "Hand '2H 3H 4H 5H 6H' should return ['2', '3', '4', '5', '6']" (VStrs (getHandValues "2H 3H 4H 5H 6H"))
     (ToStrictEqual (strs ["2"; "3"; "4"; "5"; "6"]));
   t_val "Hand '3C 2H 2H 5H 6H' should return ['3', '2', '2', '5', '6']" (VStrs (getHandValues "3C 2H 2H 5H 6H"))
     (ToStrictEqual (strs ["3"; "2"; "2"; "5"; "6"]))].

(** index.spec.ts 107-127 *)
Definition getHandSuits_tests : list test :=
  [t_val "Hand '2H 3H 4H 5H 6H' should return ['H', 'H', 'H', 'H', 'H']" (VStrs (getHandSuits "2H 3H 4H 5H 6H"))
     (ToStrictEqual (strs ["H"; "H"; "H"; "H"; "H"]));
   t_val "Hand '3C 2H 2H 5H 6H' should return ['C', 'H', 'H', 'H', 'H']" (VStrs (getHandSuits "3C 2H 2H 5H 6H"))
     (ToStrictEqual (strs ["C"; "H"; "H"; "H"; "H"]))].

(** index.spec.ts 129-137 *)
Definition isAFlush_tests : list test :=
  [t_val "Hand '2H 2H 4C 5S 6D' with no flush should return false" (VBool (isAFlush "2H 2H 4C 5S 6D")) (ToBe (VBool false));
   t_val "Hand '2H 2H 2H 5H 6H' with a flush should return true" (VBool (isAFlush "2H 2H 2H 5H 6H")) (ToBe (VBool true))].

(** index.spec.ts 139-163 *)
Definition numericValue_tests : list test :=
  [t_val "Hand value '2' should return 2" (VNum (getHandValuesNumericValue (Some "2"))) (ToBe (VNum (Num 2)));
   t_val "Hand value 'T' should return 10" (VNum (getHandValuesNumericValue (Some "T"))) (ToBe (VNum (Num 10)));
   t_val "Hand value 'J' should return 11" (VNum (getHandValuesNumericValue (Some "J"))) (ToBe (VNum (Num 11)));
   t_val "Hand value 'Q' should return 12" (VNum (getHandValuesNumericValue (Some "Q"))) (ToBe (VNum (Num 12)));
   t_val "Hand value 'K' should return 13" (VNum (getHandValuesNumericValue (Some "K"))) (ToBe (VNum (Num 13)));
   t_val "Hand value 'A' should return 14" (VNum (getHandValuesNumericValue (Some "A"))) (ToBe (VNum (Num 14)))].

(** index.spec.ts 165-175 *)
Definition highLow_tests : list test :=
  [t_val "Hand '2H 5H 6C 9S AD' should return 14" (VNum (getHighCard "2H 5H 6C 9S AD")) (ToBe (VNum (Num 14)));
   t_val "Hand '2H 5H 6C 9S AD' should return 2" (VNum (getLowCard "2H 5H 6C 9S AD")) (ToBe (VNum (Num 2)))].

(** index.spec.ts 177-193 *)
Definition isAStraight_tests : list test :=
  [t_val "Hand '2H 6H 7C 8S 9D' should return false" (VBool (isAStraight "2H 6H 7C 8S 9D")) (ToBe (VBool false));
   t_val "Hand '2H 3H 4C 5S 6D' should return true" (VBool (isAStraight "2H 3H 4C 5S 6D")) (ToBe (VBool true));
   t_val "Hand '5H 6H 7C 8S 9D' should return true" (VBool (isAStraight "5H 6H 7C 8S 9D")) (ToBe (VBool true));
   t_val "Hand 'AH 2H 3C 4S 5D' should return true" (VBool (isAStraight "AH 2H 3C 4S 5D")) (ToBe (VBool true))].

Definition fixture (i j : nat) : string := default EmptyString (pokerHands !! i ≫= (.!! j)).

Definition undefined_or_num (v : option number) : jsval :=
  match v with Some n => VNum n | None => VUndef end.

(** index.spec.ts 195-203: both tests are [test.skip]. *)
Definition comparePokerHands_tests : list test :=
  [mk_test "Flush played against a higher value flush should return -1" true
     (Normal (undefined_or_num (comparePokerHands (fixture 0 0) (fixture 0 1)))) (ToBe (VNum (Num (-1))));
   mk_test "Straight flush played against four of a kind should return 1" true
     (Normal (undefined_or_num (comparePokerHands (fixture 1 0) (fixture 1 1)))) (ToBe (VNum (Num 1)))].

(** index.spec.ts 18-204: the [describe] blocks in order. *)
Definition suite : list test :=
  isValidHand_tests ++ hasAPair_tests ++ getPairSize_tests ++ getHandValues_tests ++
  getHandSuits_tests ++ isAFlush_tests ++ numericValue_tests ++ highLow_tests ++
  isAStraight_tests ++ comparePokerHands_tests.

Definition names_with (o : outcome) (ts : list test) : list string :=
  test_name <$> filter (fun t => run_test t = o) ts.

End Suite.
