(* ===== verification/TallySpec.v ===== *)
(** The tally objects of src/index.ts against an abstract specification.
    Both [isValidHand] (index.ts 39-49) and [getPairSize] (73-77) build a
    plain object [valueCounts] by [o[k] = (o[k] || 0) + 1].  Abstractly
    such an object is a finite multiset of keys (stdpp [gmultiset]); the
    relation [tally_rel o M] says that [o] holds, for every key, its
    multiplicity in [M] and no property for a key outside [M].  The
    well-formedness invariant [tally_wf] says that the object has no
    repeated property and only positive integer counts.  Each increment
    preserves both (one step of a simulation), so both loops refine the
    multiset of the keys they read. *)

From stdpp Require Import gmultiset.
From S2P Require Import Prelude JsString JsNumber JsCollections Cards Predicates.
Import JsString JsNumber JsCollections Cards Predicates.

Module TallySpec.

(** ** The invariant and the abstraction relation *)

Definition tally_wf (o : jsobj) : Prop :=
  NoDup (obj_keys o) /\ Forall (fun kv => exists n : nat, kv.2 = Num (Z.of_nat (S n))) o.

Definition tally_rel (o : jsobj) (M : gmultiset string) : Prop :=
  forall k, obj_get o k =
    if decide (multiplicity k M = 0) then None else Some (Num (Z.of_nat (multiplicity k M))).

(** ** Lemmas on objects *)

Lemma obj_get_elem o k v : obj_get o k = Some v -> (k, v) ∈ o.
Proof.
  induction o as [|[k1 v1] o IH]; simpl; [done|].
  case_bool_decide; [intros [= <-]; subst; left | intros; right; auto].
Qed.

Lemma elem_of_obj_set o k v kv : kv ∈ obj_set o k v -> kv = (k, v) \/ kv ∈ o.
Proof.
  induction o as [|[k1 v1] o IH]; simpl; [set_solver|].
  case_bool_decide; rewrite !elem_of_cons; naive_solver.
Qed.

Lemma NoDup_obj_set o k v : NoDup (obj_keys o) -> NoDup (obj_keys (obj_set o k v)).
Proof.
  intros Hnd. rewrite obj_keys_set. case_bool_decide as Hk; [done|].
  apply NoDup_app. repeat split; [done | set_solver | apply NoDup_singleton].
Qed.

Lemma multiplicity_list_to_set_disj k (l : list string) :
  multiplicity k (list_to_set_disj l : gmultiset string) = occ k l.
Proof.
  induction l as [|x l IH]; simpl.
  - by rewrite multiplicity_empty.
  - rewrite multiplicity_disj_union, multiplicity_singleton, IH. done.
Qed.

(** ** One increment *)

(** [o[k] = (o[k] || 0) + 1] keeps the object well formed. *)
Lemma tally_incr_wf o k : tally_wf o -> tally_wf (tally_incr o k).
Proof.
  intros [Hnd Hv]. unfold tally_incr. split; [by apply NoDup_obj_set|].
  apply Forall_forall. intros kv Hkv. apply elem_of_obj_set in Hkv as [->|Hkv].
  - simpl. destruct (obj_get o k) as [v|] eqn:E.
    + apply obj_get_elem in E. rewrite Forall_forall in Hv.
      destruct (Hv _ E) as [n Hn]. simpl in Hn. subst v. exists (S n). simpl. f_equal. lia.
    + by exists 0.
  - rewrite Forall_forall in Hv. by apply Hv.
Qed.

(** The increment implements adding one copy of [k] to the multiset. *)
Lemma tally_incr_refines o M k : tally_rel o M -> tally_rel (tally_incr o k) (M ⊎ {[+ k +]}).
Proof.
  intros Hrel k'. unfold tally_incr. rewrite obj_get_set, multiplicity_disj_union, multiplicity_singleton.
  case_bool_decide as Hk; [subst k'|].
  - rewrite Hrel. destruct (decide (k = k)) as [_|]; [|congruence].
    repeat case_decide; cbn [or_zero num_add]; try lia; do 2 f_equal; lia.
  - rewrite Hrel. destruct (decide (k' = k)); [congruence|]. by rewrite Nat.add_0_r.
Qed.

Lemma tally_rel_empty : tally_rel [] ∅.
Proof. intros k. by rewrite multiplicity_empty. Qed.

Lemma tally_wf_empty : tally_wf [].
Proof. split; constructor. Qed.

(** ** The two loops *)

Lemma foldl_tally_refines (hv : list jsstr) o M :
  tally_rel o M ->
  tally_rel (foldl (fun valueCounts value => tally_incr valueCounts (to_key value)) o hv)
            (M ⊎ list_to_set_disj (to_key <$> hv)).
Proof.
  revert o M; induction hv as [|v hv IH]; intros o M Hrel; cbn [foldl].
  - by replace (M ⊎ list_to_set_disj (to_key <$> [])) with M by multiset_solver.
  - replace (M ⊎ list_to_set_disj (to_key <$> v :: hv))
      with ((M ⊎ {[+ to_key v +]}) ⊎ list_to_set_disj (to_key <$> hv)) by multiset_solver.
    apply IH. by apply tally_incr_refines.
Qed.

(** C18. The loop of [getPairSize] builds an object that holds, for each
    key, the number of cards whose value has that key, and nothing for
    the other keys: it refines the multiset of the keys it reads. *)
Theorem count_values_refines (hv : list jsstr) :
  tally_rel (count_values hv) (list_to_set_disj (to_key <$> hv)).
Proof.
  unfold count_values.
  replace (list_to_set_disj (to_key <$> hv) : gmultiset string)
    with (∅ ⊎ list_to_set_disj (to_key <$> hv) : gmultiset string) by multiset_solver.
  apply foldl_tally_refines, tally_rel_empty.
Qed.

(** C19. Each run of the token loop of [isValidHand] that completes
    refines the multiset: starting from an object related to [M], it
    ends related to [M] plus the value keys of the tokens. *)
Theorem count_tokens_refines toks o o' M :
  tally_rel o M -> count_tokens toks o = Normal o' ->
  tally_rel o' (M ⊎ list_to_set_disj (rank_key <$> toks)).
Proof.
  revert o M; induction toks as [|t toks IH]; intros o M Hrel Hrun; cbn [count_tokens] in Hrun.
  - injection Hrun as <-.
    by replace (M ⊎ list_to_set_disj (rank_key <$> [])) with M by multiset_solver.
  - destruct (_ && _); [|discriminate].
    replace (M ⊎ list_to_set_disj (rank_key <$> t :: toks))
      with ((M ⊎ {[+ rank_key t +]}) ⊎ list_to_set_disj (rank_key <$> toks)) by multiset_solver.
    eapply IH; [|exact Hrun]. by apply tally_incr_refines.
Qed.

Lemma count_tokens_refines_witness :
  tally_rel [] ∅ /\ count_tokens ["AH"; "AC"] [] = Normal [("A", Num 2)] /\
  tally_rel [("A", Num 2)] (∅ ⊎ list_to_set_disj (rank_key <$> ["AH"; "AC"])).
Proof.
  assert (H : count_tokens ["AH"; "AC"] [] = Normal [("A", Num 2)]) by reflexivity.
  split; [apply tally_rel_empty|]. split; [exact H|].
  exact (count_tokens_refines _ _ _ _ tally_rel_empty H).
Defined.

(** C20. The token loop of [isValidHand] keeps the object well formed:
    no property is created twice and every count is a positive integer. *)
Theorem count_tokens_wf toks o o' :
  tally_wf o -> count_tokens toks o = Normal o' -> tally_wf o'.
Proof.
  revert o; induction toks as [|t toks IH]; intros o Hwf Hrun; cbn [count_tokens] in Hrun.
  - by injection Hrun as <-.
  - destruct (_ && _); [|discriminate]. eapply IH; [|exact Hrun]. by apply tally_incr_wf.
Qed.

Lemma count_tokens_wf_witness :
  tally_wf [] /\ count_tokens ["AH"; "AC"; "2D"] [] = Normal [("A", Num 2); ("2", Num 1)] /\
  tally_wf [("A", Num 2); ("2", Num 1)].
Proof.
  assert (H : count_tokens ["AH"; "AC"; "2D"] [] = Normal [("A", Num 2); ("2", Num 1)]) by reflexivity.
  split; [apply tally_wf_empty|]. split; [exact H|].
  exact (count_tokens_wf _ _ _ tally_wf_empty H).
Defined.

End TallySpec.
