(* ===== verification/HandSpec.v ===== *)
(** An abstract, typed view of a poker hand and the refinement of the
    string-level functions of src/index.ts to it.  A card is a rank (one
    of thirteen) and a suit (one of four); a token of the hand string
    denotes the card whose rank symbol is its first character and whose
    suit symbol is its second, as [isValidHand] reads it (index.ts
    41-49).  [hand_of] parses a whole hand, failing on the first token
    that denotes no card.

    The theorems show that on parsed hands [isValidHand], [isAFlush],
    [hasAPair] and [isAStraight] decide the textbook properties of the
    abstract hand (with the ace-low exception of [isAStraight]), and that
    the predicates depend only on the multiset of cards, not on the order
    in which the cards are written.  [getPairSize] is shown to encode the
    pair category of a valid hand, and Module [Classifier] states the
    category cascade of spec 4.3 and shows that the same cascade written
    with the helpers agrees with it on every valid hand except the
    wheel A-2-3-4-5. *)

From S2P Require Import Prelude JsString JsNumber JsCollections Cards Predicates.
Import JsString JsNumber JsCollections Cards Predicates.

Module HandSpec.

(** ** Cards *)

Inductive rank : Type :=
  | Two | Three | Four | Five | Six | Seven | Eight | Nine | Ten
  | Jack | Queen | King | Ace.

Inductive suit : Type := Spades | Hearts | Diamonds | Clubs.

Record card : Type := Card { card_rank : rank; card_suit : suit }.

#[export] Instance rank_eq_dec : EqDecision rank.
Proof. solve_decision. Defined.
#[export] Instance suit_eq_dec : EqDecision suit.
Proof. solve_decision. Defined.
#[export] Instance card_eq_dec : EqDecision card.
Proof. solve_decision. Defined.

Definition all_ranks : list rank :=
  [Two; Three; Four; Five; Six; Seven; Eight; Nine; Ten; Jack; Queen; King; Ace].

Definition all_suits : list suit := [Spades; Hearts; Diamonds; Clubs].

(** The symbol of a rank in the table [values] (index.ts 20-34). *)
Definition rank_symbol (r : rank) : string :=
  match r with
  | Two => "2" | Three => "3" | Four => "4" | Five => "5" | Six => "6"
  | Seven => "7" | Eight => "8" | Nine => "9" | Ten => "T" | Jack => "J"
  | Queen => "Q" | King => "K" | Ace => "A"
  end.

(** The symbol of a suit in the table [suites] (index.ts 35). *)
Definition suit_symbol (u : suit) : string :=
  match u with Spades => "S" | Hearts => "H" | Diamonds => "D" | Clubs => "C" end.

(** The value of a rank in poker, the ace high. *)
Definition rank_value (r : rank) : Z :=
  match r with
  | Two => 2 | Three => 3 | Four => 4 | Five => 5 | Six => 6 | Seven => 7
  | Eight => 8 | Nine => 9 | Ten => 10 | Jack => 11 | Queen => 12
  | King => 13 | Ace => 14
  end.

Definition rank_of_symbol (v : string) : option rank :=
  List.find (fun r => bool_decide (rank_symbol r = v)) all_ranks.

Definition suit_of_symbol (u : string) : option suit :=
  List.find (fun c => bool_decide (suit_symbol c = u)) all_suits.

(** The card a token denotes: its first two characters are a rank and a
    suit symbol. *)
Definition card_of_token (t : string) : option card :=
  match char_at t 0, char_at t 1 with
  | Some v, Some u =>
      match rank_of_symbol v, suit_of_symbol u with
      | Some r, Some c => Some (Card r c)
      | _, _ => None
      end
  | _, _ => None
  end.

(** The hand a string denotes, token by token. *)
Definition hand_of (s : string) : option (list card) := mapM card_of_token (split_space s).

(** ** The abstract properties of a hand *)

Definition ranks (h : list card) : list rank := card_rank <$> h.

Definition spec_valid (h : list card) : Prop :=
  length h = 5 /\ ~ exists r, Forall (fun c => card_rank c = r) h.

#[export] Instance rank_inhabited : Inhabited rank := populate Two.
#[export] Instance suit_inhabited : Inhabited suit := populate Spades.

#[export] Instance spec_valid_dec h : Decision (spec_valid h).
Proof. unfold spec_valid. apply and_dec; [apply _ | apply not_dec, (exists_uniform_dec card_rank h)]. Defined.

Definition spec_flush (h : list card) : Prop :=
  exists u, Forall (fun c => card_suit c = u) h.

Definition spec_has_pair (h : list card) : Prop := ~ NoDup (ranks h).

(** The values of the ranks are consecutive integers. *)
Definition spec_run (h : list card) : Prop :=
  exists lo, rank_value <$> ranks h ≡ₚ run lo (length h).

(** A straight in poker is a run, or the wheel A-2-3-4-5 with the ace low. *)
Definition ace_low (h : list card) : Prop := ranks h ≡ₚ [Ace; Two; Three; Four; Five].

Definition spec_straight (h : list card) : Prop := spec_run h \/ ace_low h.

#[export] Instance spec_flush_dec h : Decision (spec_flush h).
Proof. apply (exists_uniform_dec card_suit h). Defined.

(** A run is decided by trying each value of the hand as its start. *)
#[export] Instance spec_run_dec h : Decision (spec_run h).
Proof.
  set (vs := rank_value <$> ranks h).
  destruct (decide (h = [] \/ Exists (fun v => vs ≡ₚ run v (length h)) vs)) as [H|H]; [left|right].
  - destruct H as [->|(v & _ & Hv)%Exists_exists]; [by exists 0%Z | by exists v].
  - intros [lo Hlo]. apply H. destruct h as [|c h']; [by left|right].
    apply Exists_exists. exists lo. split; [|done]. unfold vs. rewrite Hlo. apply elem_of_run. simpl. lia.
Defined.

#[export] Instance ace_low_dec h : Decision (ace_low h).
Proof. unfold ace_low. apply _. Defined.

#[export] Instance spec_straight_dec h : Decision (spec_straight h).
Proof. unfold spec_straight. apply _. Defined.

(** ** Symbols *)

#[export] Instance rank_symbol_inj : Inj eq eq rank_symbol.
Proof. intros [] []; simpl; congruence. Qed.

#[export] Instance suit_symbol_inj : Inj eq eq suit_symbol.
Proof. intros [] []; simpl; congruence. Qed.

Lemma all_ranks_complete r : r ∈ all_ranks.
Proof. apply list_elem_of_In. destruct r; simpl; tauto. Qed.

Lemma all_suits_complete u : u ∈ all_suits.
Proof. apply list_elem_of_In. destruct u; simpl; tauto. Qed.

Lemma values_rank_symbol : values = rank_symbol <$> all_ranks.
Proof. reflexivity. Qed.

Lemma suites_suit_symbol : suites = suit_symbol <$> all_suits.
Proof. reflexivity. Qed.

Section FindSymbol.
Context {A : Type} (sym : A -> string) `{!Inj eq eq sym} (all : list A).
Hypothesis all_complete : forall a, a ∈ all.

Lemma find_symbol_spec v a :
  List.find (fun b => bool_decide (sym b = v)) all = Some a <-> sym a = v.
Proof.
  split.
  - intros H. apply List.find_some in H as [_ H]. by apply bool_decide_eq_true in H.
  - intros <-. destruct (List.find _ all) as [b|] eqn:E.
    + apply List.find_some in E as [_ E]. apply bool_decide_eq_true in E. by apply (inj sym) in E as ->.
    + eapply List.find_none in E; [|apply list_elem_of_In, all_complete].
      by rewrite bool_decide_true in E.
Qed.

Lemma symbol_table v : v ∈ sym <$> all <-> exists a, sym a = v.
Proof. rewrite list_elem_of_fmap. split; intros [a Ha]; exists a; naive_solver. Qed.
End FindSymbol.

Lemma rank_of_symbol_spec v r : rank_of_symbol v = Some r <-> rank_symbol r = v.
Proof. apply find_symbol_spec; [apply _ | apply all_ranks_complete]. Qed.

Lemma suit_of_symbol_spec u c : suit_of_symbol u = Some c <-> suit_symbol c = u.
Proof. apply find_symbol_spec; [apply _ | apply all_suits_complete]. Qed.

Lemma numeric_rank r : getHandValuesNumericValue (Some (rank_symbol r)) = Num (rank_value r).
Proof. by destruct r. Qed.

(** ** Tokens and cards *)

Lemma card_of_token_spec t c :
  card_of_token t = Some c <->
  char_at t 0 = Some (rank_symbol (card_rank c)) /\ char_at t 1 = Some (suit_symbol (card_suit c)).
Proof.
  unfold card_of_token. destruct c as [r u]; cbn [card_rank card_suit].
  destruct (char_at t 0) as [v|], (char_at t 1) as [w|]; try naive_solver.
  destruct (rank_of_symbol v) as [r'|] eqn:Er, (suit_of_symbol w) as [u'|] eqn:Eu;
    rewrite ?rank_of_symbol_spec in Er; rewrite ?suit_of_symbol_spec in Eu; subst.
  - split; [intros [= -> ->]; done | intros [[= Hr] [= Hu]]].
    apply (inj _) in Hr, Hu. by subst.
  - split; [done | intros [_ [= ->]]]. by rewrite (proj2 (suit_of_symbol_spec _ u)) in Eu.
  - split; [done | intros [[= ->] _]]. by rewrite (proj2 (rank_of_symbol_spec _ r)) in Er.
  - split; [done | intros [[= ->] _]]. by rewrite (proj2 (rank_of_symbol_spec _ r)) in Er.
Qed.

(** A token is accepted by [isValidHand] exactly when it denotes a card. *)
Lemma token_ok_card t : token_ok t <-> is_Some (card_of_token t).
Proof.
  unfold token_ok. split.
  - destruct (char_at t 0) as [v|] eqn:E0, (char_at t 1) as [w|] eqn:E1; [|done..].
    rewrite values_rank_symbol, suites_suit_symbol, (symbol_table _ _ all_ranks_complete), (symbol_table _ _ all_suits_complete).
    intros [[r <-] [u <-]]. exists (Card r u). by apply card_of_token_spec.
  - intros [[r u] Hc]. apply card_of_token_spec in Hc as [-> ->].
    rewrite values_rank_symbol, suites_suit_symbol, (symbol_table _ _ all_ranks_complete), (symbol_table _ _ all_suits_complete). eauto.
Qed.

Definition denotes (toks : list string) (h : list card) : Prop :=
  Forall2 (fun t c => card_of_token t = Some c) toks h.

Lemma hand_of_denotes s h : hand_of s = Some h <-> denotes (split_space s) h.
Proof. apply mapM_Some. Qed.

Definition suits_of (h : list card) : list suit := card_suit <$> h.

Lemma denotes_length toks h : denotes toks h -> length toks = length h.
Proof. apply Forall2_length. Qed.

Lemma denotes_ranks toks h :
  denotes toks h -> (fun t => char_at t 0) <$> toks = (Some ∘ rank_symbol) <$> ranks h.
Proof.
  unfold ranks. induction 1 as [|t c toks h Hc _ IH]; [done|].
  apply card_of_token_spec in Hc as [Hr _]. by rewrite !fmap_cons, Hr, IH.
Qed.

Lemma denotes_suits toks h :
  denotes toks h -> (fun t => char_at t 1) <$> toks = (Some ∘ suit_symbol) <$> suits_of h.
Proof.
  unfold suits_of. induction 1 as [|t c toks h Hc _ IH]; [done|].
  apply card_of_token_spec in Hc as [_ Hu]. by rewrite !fmap_cons, Hu, IH.
Qed.

Lemma hand_values s h : hand_of s = Some h -> getHandValues s = (Some ∘ rank_symbol) <$> ranks h.
Proof. intros ?%hand_of_denotes. by apply denotes_ranks. Qed.

Lemma hand_suits s h : hand_of s = Some h -> getHandSuits s = (Some ∘ suit_symbol) <$> suits_of h.
Proof. intros ?%hand_of_denotes. by apply denotes_suits. Qed.

Lemma hand_nonempty s h : hand_of s = Some h -> h <> [].
Proof.
  intros Hd%hand_of_denotes ->. apply denotes_length in Hd.
  destruct (split_space s) eqn:E; [by apply (split_space_nonempty s) | discriminate].
Qed.

Lemma hand_length s h : hand_of s = Some h -> length (split_space s) = length h.
Proof. intros ?%hand_of_denotes. by apply denotes_length. Qed.

Lemma numeric_ranks h :
  getHandValuesNumericValue <$> ((Some ∘ rank_symbol) <$> ranks h) = Num <$> (rank_value <$> ranks h).
Proof.
  unfold ranks. induction h as [|c h IH]; [done|]. rewrite !fmap_cons, IH. cbn [compose].
  by rewrite numeric_rank.
Qed.

Lemma hand_numeric s h :
  hand_of s = Some h -> getHandValuesNumericValue <$> getHandValues s = Num <$> (rank_value <$> ranks h).
Proof. intros Hh. by rewrite (hand_values s h Hh), numeric_ranks. Qed.

Lemma denotes_same_rank toks h r :
  denotes toks h ->
  Forall (fun t => char_at t 0 = Some (rank_symbol r)) toks <-> Forall (fun c => card_rank c = r) h.
Proof.
  intros Hd. apply (Forall2_Forall_iff _ _ _ _ _ Hd). intros t c Hc.
  apply card_of_token_spec in Hc as [-> _]. split; [intros [= Hr]; by apply (inj _) in Hr | by intros ->].
Qed.

(** The condition [isValidHand] checks on the tokens is [spec_valid] on
    the cards they denote. *)
Lemma hand_ok_denotes toks : hand_ok toks <-> exists h, denotes toks h /\ spec_valid h.
Proof.
  unfold hand_ok, spec_valid. split.
  - intros (Hlen & Hok & Hne).
    assert (Hs : is_Some (mapM card_of_token toks)).
    { apply mapM_is_Some. eapply Forall_impl; [exact Hok|]. intros t. apply token_ok_card. }
    destruct Hs as [h Hh]. apply mapM_Some in Hh.
    exists h. split; [done|]. split; [by rewrite <- (denotes_length _ _ Hh)|].
    intros [r Hr]. apply Hne. exists (rank_symbol r). by apply (denotes_same_rank _ _ _ Hh).
  - intros (h & Hd & Hlen & Hne). split; [by rewrite (denotes_length _ _ Hd)|]. split.
    + clear Hlen Hne. induction Hd as [|t c toks h Hc _ IH]; constructor; [|done].
      apply token_ok_card. by eexists.
    + intros [v Hv]. inversion Hd as [|t c toks' h' Hc Hd']; subst; [simpl in Hlen; lia|].
      apply card_of_token_spec in Hc as [H0 _]. apply Forall_cons in Hv as Hv'.
      destruct Hv' as [Hv0 _]. rewrite H0 in Hv0. injection Hv0 as <-.
      apply Hne. exists (card_rank c). by apply (denotes_same_rank _ _ _ Hd) in Hv.
Qed.

Lemma isAFlush_hand s h : hand_of s = Some h -> isAFlush s = true <-> spec_flush h.
Proof.
  intros Hh. unfold isAFlush, spec_flush. rewrite (hand_suits s h Hh).
  assert (suits_of h <> []) by (unfold suits_of; intros ?%fmap_nil_inv; by apply (hand_nonempty s h)).
  destruct (Nat.eqb_spec (set_size ((Some ∘ suit_symbol) <$> suits_of h)) 1) as [E|E];
    rewrite set_size_one, Forall_uniform_fmap in E by (done || apply _);
    unfold suits_of in E; setoid_rewrite Forall_fmap in E; naive_solver.
Qed.

Lemma hasAPair_hand s h : hand_of s = Some h -> hasAPair s = true <-> spec_has_pair h.
Proof.
  intros Hh. rewrite hasAPair_NoDup, (hand_values s h Hh).
  unfold spec_has_pair. case_bool_decide as Hn; rewrite NoDup_fmap in Hn by apply _; naive_solver.
Qed.

Lemma isAStraight_hand s h : hand_of s = Some h -> 2 <= length h -> isAStraight s = true <-> spec_run h.
Proof.
  intros Hh H2. rewrite isAStraight_run_iff by (rewrite (hand_length s h Hh); lia).
  rewrite (hand_length s h Hh), (hand_numeric s h Hh).
  unfold spec_run. by setoid_rewrite (Permutation_fmap_inj Num).
Qed.

Lemma pair_formula_Permutation (ks1 ks2 : list string) :
  ks1 ≡ₚ ks2 ->
  bool_decide (Exists (fun k => occ k ks1 = 4) ks1) = bool_decide (Exists (fun k => occ k ks2 = 4) ks2) /\
  length (filter (fun k => 1 < occ k ks1) ks1) = length (filter (fun k => 1 < occ k ks2) ks2).
Proof.
  intros Hp. assert (Ho : forall k, occ k ks1 = occ k ks2) by (intros; by apply occ_Permutation).
  split.
  - apply bool_decide_ext. setoid_rewrite Ho. by rewrite Hp.
  - rewrite (list_filter_iff _ (fun k => 1 < occ k ks2)) by (intros; by rewrite Ho). by rewrite Hp.
Qed.

(** ** Pair categories *)

(** The categories of spec 4.3 that depend only on how often each rank
    occurs. *)
Module Pairs.
Inductive pair_category : Type :=
  | NoPair | OnePair | TwoPair | ThreeOfAKind | FullHouse | FourOfAKind.

#[export] Instance pair_category_eq_dec : EqDecision pair_category.
Proof. solve_decision. Defined.
End Pairs.
Import Pairs.

(** How often each rank of the hand occurs, in rank order. *)
Definition rank_counts (h : list card) : list nat :=
  (fun r => occ r (ranks h)) <$> filter (fun r => r ∈ ranks h) all_ranks.

Definition pair_category_of (h : list card) : pair_category :=
  let cs := rank_counts h in
  if bool_decide (4 ∈ cs) then FourOfAKind
  else if bool_decide (3 ∈ cs) then (if bool_decide (2 ∈ cs) then FullHouse else ThreeOfAKind)
  else match occ 2 cs with 0 => NoPair | 1 => OnePair | _ => TwoPair end.

(** The number [getPairSize] gives each category (index.ts 79-87). *)
Definition pair_code (c : pair_category) : Z :=
  match c with
  | NoPair => 0 | OnePair => 2 | TwoPair => 4 | ThreeOfAKind => 3 | FullHouse => 5 | FourOfAKind => 6
  end.

#[export] Instance pair_code_inj : Inj eq eq pair_code.
Proof. intros [] []; simpl; congruence. Qed.

Lemma all_ranks_NoDup : NoDup all_ranks.
Proof. apply (bool_decide_unpack _). vm_compute. exact I. Qed.

Lemma elem_of_rank_counts n h : n ∈ rank_counts h <-> exists r, r ∈ ranks h /\ occ r (ranks h) = n.
Proof.
  unfold rank_counts. rewrite list_elem_of_fmap. setoid_rewrite list_elem_of_filter.
  pose proof all_ranks_complete. naive_solver.
Qed.

Lemma rank_counts_bounds h : Forall (fun n => 1 <= n <= length h) (rank_counts h).
Proof.
  apply Forall_forall. intros n (r & Hr & <-)%elem_of_rank_counts. split; [by apply occ_pos|].
  etrans; [apply occ_le_length|]. unfold ranks. by rewrite length_fmap.
Qed.

Lemma rank_counts_cover h : NoDup (filter (fun r => r ∈ ranks h) all_ranks) /\
  forall r, r ∈ ranks h -> r ∈ filter (fun r => r ∈ ranks h) all_ranks.
Proof.
  split; [apply NoDup_filter, all_ranks_NoDup|].
  intros r Hr. apply list_elem_of_filter. split; [done | apply all_ranks_complete].
Qed.

Lemma rank_counts_sum h : sum_list (rank_counts h) = length h.
Proof.
  destruct (rank_counts_cover h) as [Hnd Hsub].
  unfold rank_counts. rewrite sum_list_fmap.
  etrans; [|etrans; [apply (sum_occ_filter (fun _ => True) (ranks h) _ Hnd Hsub)|]]; [reflexivity|].
  clear. transitivity (length (ranks h)); [|apply length_fmap].
  induction (ranks h) as [|r rs IH]; [reflexivity|]. rewrite filter_cons, decide_True by done.
  simpl. lia.
Qed.

Lemma rank_counts_pairs h :
  sum_list (filter (fun n => 1 < n) (rank_counts h)) =
  length (filter (fun r => 1 < occ r (ranks h)) (ranks h)).
Proof.
  destruct (rank_counts_cover h) as [Hnd Hsub].
  unfold rank_counts. rewrite sum_list_filter_fmap. by apply sum_occ_filter.
Qed.

Lemma rank_counts_four h : 4 ∈ rank_counts h <-> Exists (fun r => occ r (ranks h) = 4) (ranks h).
Proof. rewrite elem_of_rank_counts, Exists_exists. done. Qed.

Lemma rank_counts_five h : spec_valid h -> 5 ∉ rank_counts h.
Proof.
  intros [Hl Hne] (r & _ & H5)%elem_of_rank_counts. apply Hne. exists r.
  assert (Hr : occ r (ranks h) = length (ranks h)) by (rewrite H5; unfold ranks; rewrite length_fmap; lia).
  apply occ_eq_length in Hr. unfold ranks in Hr. by apply Forall_fmap in Hr.
Qed.

Lemma keys_ranks h : to_key <$> ((Some ∘ rank_symbol) <$> ranks h) = rank_symbol <$> ranks h.
Proof. induction (ranks h) as [|r rs IH]; [done|]. by rewrite !fmap_cons, IH. Qed.

(** ** Theorems *)

(** C22. Refinement of [isValidHand]: it returns [true] exactly on the
    strings that denote a hand of five cards whose ranks are not all the
    same. *)
Theorem isValidHand_refines s :
  isValidHand s = Normal true <-> exists h, hand_of s = Some h /\ spec_valid h.
Proof.
  setoid_rewrite hand_of_denotes. rewrite <- hand_ok_denotes.
  destruct (isValidHand_cases s) as [[H ->]|[H ->]]; naive_solver.
Qed.

(** C23. Refinement of [isAFlush] and [hasAPair]: on a string that
    denotes a hand (of any length), [isAFlush] holds exactly when all
    cards have the same suit and [hasAPair] exactly when two cards have
    the same rank. *)
Theorem flush_pair_refines s h :
  hand_of s = Some h ->
  (isAFlush s = true <-> spec_flush h) /\ (hasAPair s = true <-> spec_has_pair h).
Proof. intros Hh. split; [by apply isAFlush_hand | by apply hasAPair_hand]. Qed.

Lemma flush_pair_refines_witness :
  hand_of "2H 5H 7H 7H KH" = Some [Card Two Hearts; Card Five Hearts; Card Seven Hearts;
                                   Card Seven Hearts; Card King Hearts] /\
  (isAFlush "2H 5H 7H 7H KH" = true <->
   spec_flush [Card Two Hearts; Card Five Hearts; Card Seven Hearts; Card Seven Hearts; Card King Hearts]) /\
  (hasAPair "2H 5H 7H 7H KH" = true <->
   spec_has_pair [Card Two Hearts; Card Five Hearts; Card Seven Hearts; Card Seven Hearts; Card King Hearts]).
Proof. split; [reflexivity | apply flush_pair_refines; reflexivity]. Defined.

(** [isAStraight] on five-card hands. *)
Lemma isAStraight_hand5 s h :
  hand_of s = Some h -> length h = 5 ->
  isAStraight s = true <-> spec_straight h /\ ~ ace_low h.
Proof.
  intros Hh H5. rewrite (isAStraight_hand s h Hh) by lia. unfold spec_straight.
  enough (spec_run h -> ~ ace_low h) by tauto.
  intros [lo Hr] Ha. rewrite H5 in Hr. unfold ace_low in Ha. rewrite Ha in Hr. cbn in Hr.
  assert (H14 : 14%Z ∈ run lo 5) by (rewrite <- Hr; left).
  assert (H2 : 2%Z ∈ run lo 5) by (rewrite <- Hr; right; left).
  apply elem_of_run in H14, H2. lia.
Qed.

(** C24. Refinement of [isAStraight] on five-card hands: it holds
    exactly on the straights of poker other than the wheel A-2-3-4-5,
    which it rejects. *)
Theorem isAStraight_refines s h :
  hand_of s = Some h -> length h = 5 ->
  isAStraight s = true <-> spec_straight h /\ ~ ace_low h.
Proof. apply isAStraight_hand5. Qed.

Lemma isAStraight_refines_witness :
  hand_of "3C 4D 5H 6S 7C" = Some [Card Three Clubs; Card Four Diamonds; Card Five Hearts;
                                   Card Six Spades; Card Seven Clubs] /\
  length [Card Three Clubs; Card Four Diamonds; Card Five Hearts; Card Six Spades; Card Seven Clubs] = 5 /\
  (isAStraight "3C 4D 5H 6S 7C" = true <->
   spec_straight [Card Three Clubs; Card Four Diamonds; Card Five Hearts; Card Six Spades; Card Seven Clubs] /\
   ~ ace_low [Card Three Clubs; Card Four Diamonds; Card Five Hearts; Card Six Spades; Card Seven Clubs]).
Proof. split; [reflexivity|]. split; [reflexivity|]. apply isAStraight_refines; reflexivity. Defined.

(** C25. The predicates depend only on the multiset of cards: two strings
    that denote the same cards in another order get the same [isAFlush],
    [hasAPair], [isAStraight], [getHighCard] and [getLowCard], and the
    same [getPairSize] when they have at most five cards (with more,
    [getPairSize] depends on the order, see [getPairSize_last_four]). *)
Theorem predicates_Permutation s1 s2 h1 h2 :
  hand_of s1 = Some h1 -> hand_of s2 = Some h2 -> h1 ≡ₚ h2 ->
  isAFlush s1 = isAFlush s2 /\ hasAPair s1 = hasAPair s2 /\ isAStraight s1 = isAStraight s2 /\
  getHighCard s1 = getHighCard s2 /\ getLowCard s1 = getLowCard s2 /\
  (length h1 <= 5 -> getPairSize s1 = getPairSize s2).
Proof.
  intros H1 H2 Hp.
  assert (Hr : ranks h1 ≡ₚ ranks h2) by (unfold ranks; by rewrite Hp).
  assert (Hv : rank_value <$> ranks h1 ≡ₚ rank_value <$> ranks h2) by (by rewrite Hr).
  split; [apply Bool.eq_iff_eq_true; rewrite (isAFlush_hand _ _ H1), (isAFlush_hand _ _ H2);
          unfold spec_flush; by setoid_rewrite Hp|].
  split; [apply Bool.eq_iff_eq_true; rewrite (hasAPair_hand _ _ H1), (hasAPair_hand _ _ H2);
          unfold spec_has_pair; by rewrite Hr|].
  unfold getHighCard, getLowCard. rewrite !isAStraight_sorted, (hand_numeric _ _ H1), (hand_numeric _ _ H2).
  split; [by rewrite (js_sort_sub_Permutation _ _ Hv)|].
  split; [by apply math_max_Permutation|]. split; [by apply math_min_Permutation|].
  intros H5. pose proof (Permutation_length Hp) as Hl.
  rewrite !getPairSize_small_eq by (rewrite ?(hand_length _ _ H1), ?(hand_length _ _ H2); lia).
  cbv zeta. rewrite (hand_values _ _ H1), (hand_values _ _ H2).
  destruct (pair_formula_Permutation (to_key <$> ((Some ∘ rank_symbol) <$> ranks h1))
                                     (to_key <$> ((Some ∘ rank_symbol) <$> ranks h2))) as [E1 E2];
    [by rewrite Hr | by rewrite E1, E2].
Qed.

Definition perm_hand1 : list card :=
  [Card Two Hearts; Card Three Diamonds; Card Five Spades; Card Five Clubs; Card King Diamonds].
Definition perm_hand2 : list card :=
  [Card King Diamonds; Card Five Clubs; Card Five Spades; Card Three Diamonds; Card Two Hearts].

Lemma predicates_Permutation_witness :
  hand_of "2H 3D 5S 5C KD" = Some perm_hand1 /\ hand_of "KD 5C 5S 3D 2H" = Some perm_hand2 /\
  perm_hand1 ≡ₚ perm_hand2 /\
  getPairSize "2H 3D 5S 5C KD" = getPairSize "KD 5C 5S 3D 2H".
Proof.
  assert (Hp : perm_hand1 ≡ₚ perm_hand2) by (apply (bool_decide_unpack _); vm_compute; exact I).
  split; [reflexivity|]. split; [reflexivity|]. split; [exact Hp|].
  apply (predicates_Permutation "2H 3D 5S 5C KD" "KD 5C 5S 3D 2H" perm_hand1 perm_hand2);
    [reflexivity | reflexivity | exact Hp | simpl; lia].
Defined.

(** [getPairSize] on valid hands. *)
Lemma getPairSize_pair_code s h :
  hand_of s = Some h -> spec_valid h -> getPairSize s = Num (pair_code (pair_category_of h)).
Proof.
  intros Hh Hv. pose proof Hv as [Hl _].
  rewrite getPairSize_small_eq by (rewrite (hand_length s h Hh); lia). cbv zeta.
  rewrite (hand_values s h Hh), keys_ranks.
  assert (E4 : Exists (fun k => occ k (rank_symbol <$> ranks h) = 4) (rank_symbol <$> ranks h) <->
               4 ∈ rank_counts h).
  { rewrite Exists_fmap, rank_counts_four.
    split; intros H; (eapply Exists_impl; [exact H|]); intros r; cbn; by rewrite occ_fmap_inj by apply _. }
  assert (E2 : length (filter (fun k => 1 < occ k (rank_symbol <$> ranks h)) (rank_symbol <$> ranks h)) =
               sum_list (filter (fun n => 1 < n) (rank_counts h))).
  { rewrite length_filter_fmap, rank_counts_pairs. f_equal. apply list_filter_iff. intros r.
    by rewrite occ_fmap_inj by apply _. }
  rewrite (bool_decide_ext _ _ E4), E2.
  pose proof (rank_counts_sum h) as Hs. pose proof (rank_counts_bounds h) as Hb.
  pose proof (rank_counts_five h Hv) as H5. rewrite Hl in Hs, Hb.
  unfold pair_category_of. set (cs := rank_counts h) in *.
  destruct (sum_small_nat cs Hb) as [S1 S2]. rewrite occ_pos in H5.
  case_bool_decide as H4; [done|]. rewrite occ_pos in H4.
  case_bool_decide as H3; rewrite occ_pos in H3; [case_bool_decide as H2; rewrite occ_pos in H2|];
    [| |destruct (occ 2 cs) as [|[|n]] eqn:E]; cbn [pair_code]; f_equal; lia.
Qed.

(** C30. On a valid hand [getPairSize] encodes the pair category of spec
    4.3: 0 for no pair, 2 for one pair, 4 for two pairs, 3 for three of a
    kind, 5 for a full house and 6 for four of a kind.  [pair_code] is
    injective, so the number tells the six categories apart. *)
Theorem getPairSize_category s h :
  hand_of s = Some h -> spec_valid h -> getPairSize s = Num (pair_code (pair_category_of h)).
Proof. apply getPairSize_pair_code. Qed.

Definition full_house : list card :=
  [Card Three Hearts; Card Three Diamonds; Card Three Spades; Card Nine Clubs; Card Nine Diamonds].

Lemma getPairSize_category_witness :
  hand_of "3H 3D 3S 9C 9D" = Some full_house /\ spec_valid full_house /\
  getPairSize "3H 3D 3S 9C 9D" = Num (pair_code (pair_category_of full_house)).
Proof.
  assert (Hv : spec_valid full_house) by (apply (bool_decide_unpack _); vm_compute; exact I).
  split; [reflexivity|]. split; [exact Hv|]. apply getPairSize_category; [reflexivity | exact Hv].
Defined.

(** ** The category cascade of spec 4.3 *)

Lemma rank_counts_Permutation h rs :
  ranks h ≡ₚ rs -> rank_counts h = (fun r => occ r rs) <$> filter (fun r => r ∈ rs) all_ranks.
Proof.
  intros Hp. unfold rank_counts. rewrite (list_filter_iff _ (fun r => r ∈ rs)) by (intros; by rewrite Hp).
  apply list_fmap_ext. intros _ r _. by apply occ_Permutation.
Qed.

Module Classifier.

Inductive category : Type :=
  | HighCard | OnePair | TwoPair | ThreeOfAKind | Straight | Flush
  | FullHouse | FourOfAKind | StraightFlush.

#[export] Instance category_eq_dec : EqDecision category.
Proof. solve_decision. Defined.

(** Steps 1-4 of the cascade, strongest first. *)
Definition spec_category (h : list card) : category :=
  let fl := bool_decide (spec_flush h) in
  let st := bool_decide (spec_straight h) in
  if fl && st then StraightFlush else
  match pair_category_of h with
  | Pairs.FourOfAKind => FourOfAKind
  | Pairs.FullHouse => FullHouse
  | pc =>
      if fl then Flush else if st then Straight else
      match pc with
      | Pairs.ThreeOfAKind => ThreeOfAKind
      | Pairs.TwoPair => TwoPair
      | Pairs.OnePair => OnePair
      | _ => HighCard
      end
  end.

(** The same cascade written with the helpers of src/index.ts, as a body
    of [comparePokerHands] would call them on a hand string. *)
Definition helper_category (s : string) : category :=
  let fl := isAFlush s in
  let st := isAStraight s in
  if fl && st then StraightFlush else
  match getPairSize s with
  | Num 6 => FourOfAKind
  | Num 5 => FullHouse
  | n =>
      if fl then Flush else if st then Straight else
      match n with
      | Num 3 => ThreeOfAKind
      | Num 4 => TwoPair
      | Num 2 => OnePair
      | _ => HighCard
      end
  end.

Lemma isAFlush_decide s h : hand_of s = Some h -> isAFlush s = bool_decide (spec_flush h).
Proof. intros Hh. apply Bool.eq_iff_eq_true. rewrite bool_decide_eq_true. by apply isAFlush_hand. Qed.

(** C31. Composition: on a valid hand other than the wheel, the cascade
    built from [isAFlush], [isAStraight] and [getPairSize] gives the
    category of spec 4.3, so the helpers suffice to classify hands. *)
Theorem helper_category_spec s h :
  hand_of s = Some h -> spec_valid h -> ~ ace_low h -> helper_category s = spec_category h.
Proof.
  intros Hh Hv Hw. pose proof Hv as [Hl _].
  assert (Hs : isAStraight s = bool_decide (spec_straight h)).
  { apply Bool.eq_iff_eq_true. rewrite bool_decide_eq_true, (isAStraight_hand5 s h Hh Hl). tauto. }
  unfold helper_category, spec_category.
  rewrite (isAFlush_decide s h Hh), Hs, (getPairSize_pair_code s h Hh Hv).
  destruct (pair_category_of h); reflexivity.
Qed.

Definition two_pair_hand : list card :=
  [Card Two Hearts; Card Two Diamonds; Card Five Spades; Card Five Clubs; Card King Diamonds].

Lemma helper_category_spec_witness :
  hand_of "2H 2D 5S 5C KD" = Some two_pair_hand /\ spec_valid two_pair_hand /\ ~ ace_low two_pair_hand /\
  helper_category "2H 2D 5S 5C KD" = spec_category two_pair_hand.
Proof.
  assert (Hv : spec_valid two_pair_hand) by (apply (bool_decide_unpack _); vm_compute; exact I).
  assert (Hw : ~ ace_low two_pair_hand) by (apply (bool_decide_unpack _); vm_compute; exact I).
  split; [reflexivity|]. split; [exact Hv|]. split; [exact Hw|].
  apply helper_category_spec; [reflexivity | exact Hv | exact Hw].
Defined.

(** C32. The wheel A-2-3-4-5 is the one valid hand on which the helpers
    misclassify: spec 4.3 makes it a straight (a straight flush when the
    suits agree) and the helper cascade a high card (a flush). *)
Theorem helper_category_wheel s h :
  hand_of s = Some h -> spec_valid h -> ace_low h ->
  spec_category h = (if bool_decide (spec_flush h) then StraightFlush else Straight) /\
  helper_category s = (if bool_decide (spec_flush h) then Flush else HighCard).
Proof.
  intros Hh Hv Hw. pose proof Hv as [Hl _].
  assert (Hs : isAStraight s = false).
  { apply Bool.not_true_iff_false. rewrite (isAStraight_hand5 s h Hh Hl). tauto. }
  assert (Hc : pair_category_of h = NoPair).
  { unfold pair_category_of. by rewrite (rank_counts_Permutation h _ Hw). }
  unfold helper_category, spec_category.
  rewrite (isAFlush_decide s h Hh), Hs, (getPairSize_pair_code s h Hh Hv), Hc, (bool_decide_true (spec_straight h)) by (by right).
  by destruct (bool_decide (spec_flush h)).
Qed.

Definition wheel_hand : list card :=
  [Card Ace Hearts; Card Two Hearts; Card Three Clubs; Card Four Spades; Card Five Diamonds].

Lemma helper_category_wheel_witness :
  hand_of "AH 2H 3C 4S 5D" = Some wheel_hand /\ spec_valid wheel_hand /\ ace_low wheel_hand /\
  spec_category wheel_hand = Straight /\ helper_category "AH 2H 3C 4S 5D" = HighCard.
Proof.
  assert (Hv : spec_valid wheel_hand) by (apply (bool_decide_unpack _); vm_compute; exact I).
  assert (Hw : ace_low wheel_hand) by (apply (bool_decide_unpack _); vm_compute; exact I).
  destruct (helper_category_wheel "AH 2H 3C 4S 5D" wheel_hand eq_refl Hv Hw) as [H1 H2].
  assert (Hf : bool_decide (spec_flush wheel_hand) = false) by (vm_compute; reflexivity).
  rewrite Hf in H1, H2. split; [reflexivity|]. split; [exact Hv|]. split; [exact Hw|]. split; [exact H1 | exact H2].
Defined.

End Classifier.

End HandSpec.
