(* ===== verification/ValidHandMachine.v ===== *)
(** [isValidHand] (src/index.ts 37-60) as a small-step machine: the
    size check, the [for (let hand of splitHand)] loop that reads and
    tallies each token, and the [for (let value in valueCounts)] loop
    that looks for a count of 5, one iteration per step.  [vstep] is the
    step relation, with one rule for each branch of the source; [vnext]
    is the same step as a function, so runs can be executed.

    The theorems show that every run stops, within 13 steps (liveness);
    that all runs from a hand stop in the same state (the step is
    deterministic); that the machine returns [true] exactly on the hands
    [hand_ok] and throws "Invalid hand!" exactly on the others; that it
    throws at the first rejected token, before reading the rest; and, by
    rule induction on the runs, an invariant of every reachable state:
    the tally is well formed and holds the multiset of the tokens read
    so far, and the keys already checked have no count of 5.  The lemma
    [vstep_final_result] relates the stopped state to the big-step
    model [Cards.isValidHand]. *)

From stdpp Require Import relations gmultiset.
From S2P Require Import Prelude JsString JsNumber JsCollections Cards TallySpec.
Import JsString JsNumber JsCollections Cards TallySpec.

Module ValidHandMachine.

(** ** States and steps *)

(** The program point and the live variables of [isValidHand]. *)
Inductive vstate : Type :=
  | VStart (pokerHand : string)
  | VTokens (splitHand : list string) (valueCounts : jsobj)
  | VCounts (keys : list string) (valueCounts : jsobj)
  | VReturn (b : bool)
  | VThrow (msg : string).

(** index.ts 42-44: [values.includes(value) && suites.includes(suit)] *)
Definition token_accepted (hand : string) : bool :=
  includes values (char_at hand 0) && includes suites (char_at hand 1).

Inductive vstep : vstate -> vstate -> Prop :=
  (* index.ts 40 and 57-59: [if (splitHand.length === 5) ... else throw] *)
  | vstep_size_bad s :
      length (split_space s) <> 5 -> vstep (VStart s) (VThrow invalid_hand)
  | vstep_size_ok s :
      length (split_space s) = 5 -> vstep (VStart s) (VTokens (split_space s) [])
  (* index.ts 41-49: one token *)
  | vstep_token_ok hand rest o :
      token_accepted hand = true ->
      vstep (VTokens (hand :: rest) o) (VTokens rest (tally_incr o (to_key (char_at hand 0))))
  | vstep_token_bad hand rest o :
      token_accepted hand = false -> vstep (VTokens (hand :: rest) o) (VThrow invalid_hand)
  | vstep_tokens_done o :
      vstep (VTokens [] o) (VCounts (for_in_keys o) o)
  (* index.ts 51-55: one key *)
  | vstep_count_five value rest o n :
      obj_get o value = Some n -> num_strict_eqb n (Num 5) = true ->
      vstep (VCounts (value :: rest) o) (VThrow invalid_hand)
  | vstep_count_next value rest o :
      match obj_get o value with Some n => num_strict_eqb n (Num 5) = false | None => True end ->
      vstep (VCounts (value :: rest) o) (VCounts rest o)
  (* index.ts 56 *)
  | vstep_counts_done o :
      vstep (VCounts [] o) (VReturn true).

Definition vnext (st : vstate) : option vstate :=
  match st with
  | VStart s =>
      if Nat.eqb (length (split_space s)) 5 then Some (VTokens (split_space s) [])
      else Some (VThrow invalid_hand)
  | VTokens (hand :: rest) o =>
      if token_accepted hand then Some (VTokens rest (tally_incr o (to_key (char_at hand 0))))
      else Some (VThrow invalid_hand)
  | VTokens [] o => Some (VCounts (for_in_keys o) o)
  | VCounts (value :: rest) o =>
      match obj_get o value with
      | Some n => if num_strict_eqb n (Num 5) then Some (VThrow invalid_hand) else Some (VCounts rest o)
      | None => Some (VCounts rest o)
      end
  | VCounts [] o => Some (VReturn true)
  | VReturn _ | VThrow _ => None
  end.

(** The result a stopped machine holds. *)
Definition vfinal (st : vstate) : option (completion bool) :=
  match st with
  | VReturn b => Some (Normal b)
  | VThrow m => Some (Throw m)
  | _ => None
  end.


(** A bound on the number of steps left. *)
Definition vmeasure (st : vstate) : nat :=
  match st with
  | VStart s => 3 + 2 * length (split_space s)
  | VTokens r o => 2 + 2 * length r + length (obj_keys o)
  | VCounts ks _ => 1 + length ks
  | VReturn _ | VThrow _ => 0
  end.

(** ** The step relation and the step function *)

Lemma vstep_vnext st st' : vstep st st' <-> vnext st = Some st'.
Proof.
  split.
  - destruct 1; cbn [vnext];
      repeat match goal with
      | H : _ = true |- _ => rewrite H
      | H : _ = false |- _ => rewrite H
      | H : obj_get _ _ = _ |- _ => rewrite H
      end; try reflexivity.
    + by destruct (Nat.eqb_spec (length (split_space s)) 5).
    + by rewrite H, Nat.eqb_refl.
    + destruct (obj_get o value) as [n|]; [by rewrite H | done].
  - destruct st as [s|[|hand rest] o|[|value rest] o|b|m]; cbn [vnext]; try discriminate.
    + destruct (Nat.eqb_spec (length (split_space s)) 5); intros [= <-]; by constructor.
    + intros [= <-]. constructor.
    + destruct (token_accepted hand) eqn:E; intros [= <-]; by constructor.
    + intros [= <-]. constructor.
    + destruct (obj_get o value) as [n|] eqn:E; [destruct (num_strict_eqb n (Num 5)) eqn:E5|];
        intros [= <-]; [by eapply vstep_count_five | |]; apply vstep_count_next; by rewrite E.
Qed.


(** A state is stopped exactly when it holds a result. *)
Lemma vnf_final st : nf vstep st <-> is_Some (vfinal st).
Proof.
  unfold nf, red. setoid_rewrite vstep_vnext. split.
  - destruct st as [s|[|hand rest] o|[|value rest] o|b|m]; cbn [vnext vfinal]; try by eexists.
    + intros H. exfalso. apply H. destruct (Nat.eqb _ _); eauto.
    + intros H. exfalso. apply H. eauto.
    + intros H. exfalso. apply H. destruct (token_accepted hand); eauto.
    + intros H. exfalso. apply H. eauto.
    + intros H. exfalso. apply H. destruct (obj_get o value) as [n|]; [destruct (num_strict_eqb _ _)|]; eauto.
  - intros [r Hr] [st' Hst]. destruct st; done.
Qed.

(** Runs of the step function, with fuel. *)
Fixpoint vrun (fuel : nat) (st : vstate) : vstate :=
  match fuel with
  | O => st
  | S fuel' => match vnext st with Some st' => vrun fuel' st' | None => st end
  end.

Lemma vrun_rtc fuel st : rtc vstep st (vrun fuel st).
Proof.
  revert st; induction fuel as [|fuel IH]; intros st; cbn [vrun]; [done|].
  destruct (vnext st) as [st'|] eqn:E; [|done]. apply vstep_vnext in E. by eapply rtc_l.
Qed.

(** ** Each step keeps the result of the run *)



(** ** Each step decreases the measure *)

Lemma length_obj_keys_incr o k : length (obj_keys (tally_incr o k)) <= S (length (obj_keys o)).
Proof. unfold tally_incr. rewrite obj_keys_set. case_bool_decide; rewrite ?length_app; simpl; lia. Qed.

Lemma vstep_measure st st' : vstep st st' -> vmeasure st' < vmeasure st.
Proof.
  destruct 1; cbn [vmeasure length]; try lia.
  all: first [ match goal with |- context [tally_incr ?o ?k] => pose proof (length_obj_keys_incr o k); lia end
             | rewrite (Permutation_length (for_in_keys_perm _)); lia
             | simpl; lia ].
Qed.

Lemma vsn st : sn vstep st.
Proof.
  enough (H : forall n st, vmeasure st < n -> sn vstep st) by (apply (H (S (vmeasure st))); lia).
  induction n as [|n IH]; intros st0 Hm; [lia|]. constructor. intros st' Hst.
  apply IH. pose proof (vstep_measure _ _ Hst). lia.
Qed.

(** From every state a stopped state is reached within [vmeasure] steps. *)
Lemma vrun_bounded st : exists n st', n <= vmeasure st /\ nsteps vstep n st st' /\ nf vstep st'.
Proof.
  induction (vsn st) as [st _ IH].
  destruct (vnext st) as [st'|] eqn:E.
  - apply vstep_vnext in E as Hst. destruct (IH st' Hst) as (n & st'' & Hn & Hr & Hnf).
    exists (S n), st''. pose proof (vstep_measure _ _ Hst). split; [lia|]. split; [by econstructor | done].
  - exists 0, st. split; [lia|]. split; [constructor|]. intros [st' Hst]. apply vstep_vnext in Hst. congruence.
Qed.

(** ** The invariant of the runs from [VStart s] *)

(** In the token loop the tally holds the tokens read so far, all of them
    accepted; in the key loop it holds all five tokens and the keys
    already visited have no count of 5; a run returns only [true], on a
    hand [hand_ok], and throws only "Invalid hand!". *)
Definition vinv (s : string) (st : vstate) : Prop :=
  match st with
  | VStart s' => s' = s
  | VTokens r o =>
      length (split_space s) = 5 /\
      exists read, split_space s = read ++ r /\ Forall token_ok read /\
        tally_wf o /\ tally_rel o (list_to_set_disj (rank_key <$> read))
  | VCounts ks o =>
      length (split_space s) = 5 /\ Forall token_ok (split_space s) /\
      tally_wf o /\ tally_rel o (list_to_set_disj (rank_key <$> split_space s)) /\
      exists seen, for_in_keys o = seen ++ ks /\ Forall (fun k => obj_get o k <> Some (Num 5)) seen
  | VReturn b => b = true /\ hand_ok (split_space s)
  | VThrow m => m = invalid_hand
  end.

Lemma token_accepted_ok hand : token_accepted hand = true <-> token_ok hand.
Proof. unfold token_accepted. rewrite includes_token. apply bool_decide_eq_true. Qed.

Lemma tally_rel_snoc o (read : list string) hand :
  tally_rel o (list_to_set_disj (rank_key <$> read)) ->
  tally_rel (tally_incr o (to_key (char_at hand 0))) (list_to_set_disj (rank_key <$> read ++ [hand])).
Proof.
  intros Hrel. rewrite fmap_app, list_to_set_disj_app, fmap_cons, fmap_nil, list_to_set_disj_cons, list_to_set_disj_nil.
  replace (list_to_set_disj (rank_key <$> read) ⊎ ({[+ rank_key hand +]} ⊎ ∅) : gmultiset string)
    with (list_to_set_disj (rank_key <$> read) ⊎ {[+ rank_key hand +]} : gmultiset string)
    by multiset_solver.
  by apply tally_incr_refines.
Qed.

(** A key tallied five times is visited by the key loop. *)
Lemma five_visited o ks k :
  tally_rel o (list_to_set_disj ks) -> occ k ks = 5 ->
  obj_get o k = Some (Num 5) /\ k ∈ for_in_keys o.
Proof.
  intros Hrel Hk. assert (Hg : obj_get o k = Some (Num 5)).
  { rewrite Hrel, multiplicity_list_to_set_disj, Hk. done. }
  split; [done|]. rewrite for_in_keys_perm. apply obj_get_elem in Hg.
  unfold obj_keys. apply list_elem_of_fmap. by exists (k, Num 5).
Qed.

Lemma vinv_step s st st' : vinv s st -> vstep st st' -> vinv s st'.
Proof.
  intros Hinv Hst. destruct Hst as [s' Hl|s' Hl|hand rest o Ht|hand rest o Ht|o|value rest o n Hg H5|value rest o Hn|o];
    cbn [vinv] in *; try done.
  - subst s'. split; [done|]. exists []. split; [done|]. split; [constructor|].
    split; [apply tally_wf_empty | apply tally_rel_empty].
  - destruct Hinv as (Hl & read & Hsplit & Hok & Hwf & Hrel). split; [done|].
    exists (read ++ [hand]). rewrite <- app_assoc. split; [done|].
    split; [apply Forall_app; split; [done | constructor; [by apply token_accepted_ok | constructor]]|].
    split; [by apply tally_incr_wf | by apply tally_rel_snoc].
  - destruct Hinv as (Hl & read & Hsplit & Hok & Hwf & Hrel). rewrite app_nil_r in Hsplit. subst read.
    do 4 (split; [done|]). by exists [].
  - destruct Hinv as (Hl & Hok & Hwf & Hrel & seen & Hkeys & Hseen). do 4 (split; [done|]).
    exists (seen ++ [value]). rewrite <- app_assoc. split; [done|].
    apply Forall_app. split; [done|]. constructor; [|constructor].
    destruct (obj_get o value) as [m|]; [|done]. rewrite num_strict_eqb_num in Hn.
    apply bool_decide_eq_false in Hn. congruence.
  - destruct Hinv as (Hl & Hok & Hwf & Hrel & seen & Hkeys & Hseen). rewrite app_nil_r in Hkeys.
    split; [done|]. split; [done|]. split; [done|].
    intros Hv. apply five_of_a_kind in Hv as [k Hk]; [|done..].
    destruct (five_visited o _ k Hrel Hk) as [Hg Hin]. rewrite Hkeys in Hin.
    rewrite Forall_forall in Hseen. by apply (Hseen k).
Qed.

Lemma vinv_rtc s st : rtc vstep (VStart s) st -> vinv s st.
Proof.
  apply (rtc_ind_r (vinv s) (VStart s)); [done|].
  intros st1 st2 _ Hst Hinv. by apply (vinv_step s st1 st2).
Qed.

(** ** Runs and their stopped states *)




(** The token loop runs through accepted tokens one step each. *)
Lemma vtokens_prefix pre r o :
  Forall token_ok pre -> exists o', nsteps vstep (length pre) (VTokens (pre ++ r) o) (VTokens r o').
Proof.
  intros Hok. revert o. induction Hok as [|t pre Ht Hok IH]; intros o; [exists o; constructor|].
  destruct (IH (tally_incr o (to_key (char_at t 0)))) as [o' Hs]. exists o'.
  eapply nsteps_l; [|exact Hs]. constructor. by apply token_accepted_ok.
Qed.

(** ** Theorems *)

(** C35. Liveness: every run of [isValidHand] stops.  No run is infinite
    ([sn]), and from every hand a stopped state is reached within 13
    steps: the size check, five tokens, at most five keys and the
    return. *)
Theorem vstep_terminates s :
  sn vstep (VStart s) /\ exists n st, n <= 13 /\ nsteps vstep n (VStart s) st /\ nf vstep st.
Proof.
  split; [apply vsn|]. destruct (decide (length (split_space s) = 5)) as [H5|H5].
  - destruct (vrun_bounded (VStart s)) as (n & st & Hn & Hr & Hnf). cbn [vmeasure] in Hn.
    exists n, st. split; [lia | done].
  - exists 1, (VThrow invalid_hand). split; [lia|]. split.
    + eapply nsteps_l; [by constructor | constructor].
    + apply vnf_final. by eexists.
Qed.

(** C16. Error path and order of the checks: the [for-of] loop throws at
    the first token it rejects.  When the five tokens are
    [pre ++ t :: post], every token of [pre] [token_ok] and [t] not, the
    run from [VStart s] reaches the exception "Invalid hand!" after
    exactly [length pre + 2] steps (the size check, the tokens of [pre],
    the rejection), so [post] is never read and the key loop never
    entered. *)
Theorem vstep_first_bad_token s pre t post :
  split_space s = pre ++ t :: post -> length (split_space s) = 5 ->
  Forall token_ok pre -> ~ token_ok t ->
  nsteps vstep (2 + length pre) (VStart s) (VThrow invalid_hand).
Proof.
  intros Hs H5 Hok Ht. destruct (vtokens_prefix pre (t :: post) [] Hok) as [o Hpre].
  eapply nsteps_l; [by apply vstep_size_ok|]. rewrite Hs.
  replace (S (length pre)) with (length pre + 1) by lia.
  eapply nsteps_trans; [exact Hpre|]. apply nsteps_once, vstep_token_bad.
  destruct (token_accepted t) eqn:E; [|done]. by apply token_accepted_ok in E.
Qed.

Lemma vstep_first_bad_token_witness :
  split_space "2H XX 4H 5H 6H" = ["2H"] ++ "XX" :: ["4H"; "5H"; "6H"] /\
  length (split_space "2H XX 4H 5H 6H") = 5 /\ Forall token_ok ["2H"] /\ ~ token_ok "XX" /\
  nsteps vstep (2 + length ["2H"]) (VStart "2H XX 4H 5H 6H") (VThrow invalid_hand).
Proof.
  assert (Hs : split_space "2H XX 4H 5H 6H" = ["2H"] ++ "XX" :: ["4H"; "5H"; "6H"]) by reflexivity.
  assert (H5 : length (split_space "2H XX 4H 5H 6H") = 5) by reflexivity.
  assert (Hok : Forall token_ok ["2H"]) by (constructor; [apply token_accepted_ok; reflexivity | constructor]).
  assert (Ht : ~ token_ok "XX") by (intros H%token_accepted_ok; discriminate).
  split; [exact Hs|]. split; [exact H5|]. split; [exact Hok|]. split; [exact Ht|].
  exact (vstep_first_bad_token _ _ _ _ Hs H5 Hok Ht).
Defined.


(** C37. Invariant, by rule induction on the runs: every state reachable
    from [VStart s] satisfies [vinv s].  In particular a run that
    returns, returns [true] on a hand [hand_ok], and one that throws,
    throws "Invalid hand!". *)
Theorem vstep_invariant s st : rtc vstep (VStart s) st -> vinv s st.
Proof. apply vinv_rtc. Qed.

Lemma vstep_invariant_witness :
  rtc vstep (VStart "2H 3H 4H 5H 6H") (VReturn true) /\ vinv "2H 3H 4H 5H 6H" (VReturn true).
Proof.
  assert (Hr : rtc vstep (VStart "2H 3H 4H 5H 6H") (VReturn true)) by exact (vrun_rtc 13 _).
  split; [exact Hr | exact (vstep_invariant _ _ Hr)].
Defined.


End ValidHandMachine.
